(** * Game of Life with wormholes: the engine of [game_of_life_wormhole.py]

    A shallow embedding of class [GameOfLifeWithWormholes]: the wormhole
    table builder, the neighbour resolution with its diagonal precedence,
    the neighbour count, [step] and [run_simulation].  Image loading and
    saving are outside the model: the engine starts from the arrays that
    [__init__] obtains from the images. *)

From Stdlib Require Import ZArith Lia.
From stdpp Require Import base option list gmap.

Open Scope Z_scope.

(** ** Exceptions and the error monad

    The only exceptions the modelled methods can raise are the
    [ZeroDivisionError] of [%] and the [IndexError] of an array access. *)

Inductive exn : Type :=
  | ZeroDivisionError
  | IndexError.

Inductive result (A : Type) : Type :=
  | Ok (a : A)
  | Raise (e : exn).

Arguments Ok {A} a.
Arguments Raise {A} e.

#[global] Instance result_ret : MRet result := fun A a => Ok a.

#[global] Instance result_bind : MBind result := fun A B f m =>
  match m with
  | Ok a => f a
  | Raise e => Raise e
  end.

(** [for x in xs: s = body x s], stopping at the first exception. *)
Fixpoint for_each {A S : Type} (xs : list A) (body : A → S → result S) (s : S)
  : result S :=
  match xs with
  | [] => Ok s
  | x :: xs' => s' ← body x s; for_each xs' body s'
  end.

(** ** Python and NumPy primitives *)

(** [range(n)]: empty when [n <= 0]. *)
Definition py_range (n : Z) : list Z := Z.of_nat <$> seq 0 (Z.to_nat n).

(** [a % m] on Python integers: the result has the sign of [m], as
    [Z.modulo] does; a zero modulus raises. *)
Definition py_mod (a m : Z) : result Z :=
  if bool_decide (m = 0) then Raise ZeroDivisionError else Ok (a mod m).

(** A two-dimensional NumPy array, as its list of rows. *)
Abbreviation ndarray A := (list (list A)) (only parsing).

(** One axis of a NumPy index: [i] is valid in [-n, n), a negative index
    counts from the end. *)
Definition np_index (n : nat) (i : Z) : option nat :=
  if bool_decide (0 ≤ i < Z.of_nat n) then Some (Z.to_nat i)
  else if bool_decide (- Z.of_nat n ≤ i < 0) then Some (Z.to_nat (i + Z.of_nat n))
  else None.

(** [a[y, x]] *)
Definition nd_get {A : Type} (a : ndarray A) (y x : Z) : result A :=
  match np_index (length a) y with
  | None => Raise IndexError
  | Some i =>
      match a !! i with
      | None => Raise IndexError
      | Some row =>
          match np_index (length row) x with
          | None => Raise IndexError
          | Some j =>
              match row !! j with
              | None => Raise IndexError
              | Some v => Ok v
              end
          end
      end
  end.

(** [a[y, x] = v] *)
Definition nd_set {A : Type} (a : ndarray A) (y x : Z) (v : A)
  : result (ndarray A) :=
  match np_index (length a) y with
  | None => Raise IndexError
  | Some i =>
      match a !! i with
      | None => Raise IndexError
      | Some row =>
          match np_index (length row) x with
          | None => Raise IndexError
          | Some j => Ok (<[i := <[j := v]> row]> a)
          end
      end
  end.

(** ** Data of the engine *)

Abbreviation pos := (Z * Z)%type (only parsing).        (* (y, x) *)
Abbreviation color := (Z * Z * Z)%type (only parsing).  (* an RGB pixel *)
Definition black : color := (0, 0, 0).

(** [color_to_positions]: a [defaultdict(list)], kept in insertion order. *)
Abbreviation color_groups := (list (color * list pos)) (only parsing).

(** [color_to_positions[pixel].append(p)] *)
Fixpoint dd_append (d : color_groups) (pixel : color) (p : pos) : color_groups :=
  match d with
  | [] => [(pixel, [p])]
  | (c, ps) :: d' =>
      if bool_decide (c = pixel) then (c, ps ++ [p]) :: d'
      else (c, ps) :: dd_append d' pixel p
  end.

(** The body of the second loop of [_build_wormhole_connections]. *)
Definition connect (wormhole_map : gmap pos pos) (entry : color * list pos)
  : gmap pos pos :=
  match entry.2 with
  | [pos1; pos2] => <[pos2 := pos1]> (<[pos1 := pos2]> wormhole_map)
  | _ => wormhole_map
  end.

(** The first loop: the colour groups of the scanned pixels. *)
Definition scan_tunnel_map (height width : Z) (tunnel_map : ndarray color)
  : result color_groups :=
  for_each (py_range height) (fun y d =>
    for_each (py_range width) (fun x d =>
      pixel ← nd_get tunnel_map y x;
      if bool_decide (pixel ≠ black) then mret (dd_append d pixel (y, x))
      else mret d) d) [].

Definition _build_wormhole_connections (height width : Z)
    (tunnel_map : ndarray color) : result (gmap pos pos) :=
  color_to_positions ← scan_tunnel_map height width tunnel_map;
  mret (foldl connect ∅ color_to_positions).

(** The fields of a [GameOfLifeWithWormholes] object that the engine uses. *)
Record engine : Type := Engine {
  grid : ndarray Z;
  height : Z;
  width : Z;
  h_wormholes : gmap pos pos;
  v_wormholes : gmap pos pos
}.

Definition set_grid (e : engine) (g : ndarray Z) : engine :=
  {| grid := g; height := height e; width := width e;
     h_wormholes := h_wormholes e; v_wormholes := v_wormholes e |}.

(** ** Neighbour resolution *)

Section Resolution.
Variable e : engine.
Variables y x dy dx : Z.

(** "No wormhole, return regular neighbor coordinates" *)
Definition regular_neighbor : result pos :=
  new_y ← py_mod (y + dy) (height e);
  new_x ← py_mod (x + dx) (width e);
  mret (new_y, new_x).

(** The four guarded returns of the diagonal block, in source order. *)
Definition diagonal_neighbor : result pos :=
  if bool_decide (dy ≠ 0 ∧ dx ≠ 0) then
    match (if bool_decide (dy < 0) then v_wormholes e !! (y, x) else None) with
    | Some (ny, nx) =>
        new_x ← py_mod (nx + dx) (width e);
        r ← py_mod (ny - 1) (height e);
        mret (r, new_x)
    | None =>
    match (if bool_decide (dx > 0) then h_wormholes e !! (y, x) else None) with
    | Some (ny, nx) =>
        new_y ← py_mod (ny + dy) (height e);
        c ← py_mod (nx + 1) (width e);
        mret (new_y, c)
    | None =>
    match (if bool_decide (dy > 0) then v_wormholes e !! (y, x) else None) with
    | Some (ny, nx) =>
        new_x ← py_mod (nx + dx) (width e);
        r ← py_mod (ny + 1) (height e);
        mret (r, new_x)
    | None =>
    match (if bool_decide (dx < 0) then h_wormholes e !! (y, x) else None) with
    | Some (ny, nx) =>
        new_y ← py_mod (ny + dy) (height e);
        c ← py_mod (nx - 1) (width e);
        mret (new_y, c)
    | None => regular_neighbor
    end end end end
  else regular_neighbor.

Definition vertical_neighbor : result pos :=
  match (if bool_decide (dx = 0 ∧ dy ≠ 0) then v_wormholes e !! (y, x)
         else None) with
  | Some (ny, nx) =>
      if bool_decide (dy > 0) then r ← py_mod (ny + 1) (height e); mret (r, nx)
      else r ← py_mod (ny - 1) (height e); mret (r, nx)
  | None => diagonal_neighbor
  end.

Definition _get_wormhole_neighbor : result pos :=
  match (if bool_decide (dy = 0 ∧ dx ≠ 0) then h_wormholes e !! (y, x)
         else None) with
  | Some (ny, nx) =>
      if bool_decide (dx > 0) then c ← py_mod (nx + 1) (width e); mret (ny, c)
      else c ← py_mod (nx - 1) (width e); mret (ny, c)
  | None => vertical_neighbor
  end.
End Resolution.

(** ** Neighbour count, step and run *)

Definition directions : list Z := [-1; 0; 1].

(** The body of the inner loop of [_count_neighbors]. *)
Definition count_one (e : engine) (g : ndarray Z) (y x dy dx count : Z)
  : result Z :=
  if bool_decide (dy = 0 ∧ dx = 0) then mret count
  else
    '(ny, nx) ← _get_wormhole_neighbor e y x dy dx;
    if bool_decide ((0 ≤ ny < height e) ∧ (0 ≤ nx < width e))
    then v ← nd_get g ny nx; mret (count + v)
    else mret count.

(** The running total is kept exact.  On a grid of zeros and ones it
    never exceeds eight, so NumPy's [uint8] accumulator cannot wrap. *)
Definition _count_neighbors (e : engine) (g : ndarray Z) (y x : Z) : result Z :=
  for_each directions (fun dy count =>
    for_each directions (fun dx count => count_one e g y x dy dx count) count) 0.

(** The body of the inner loop of [step]; [new_grid] is the copy being
    written, all reads go to [grid e]. *)
Definition step_cell (e : engine) (y x : Z) (new_grid : ndarray Z)
  : result (ndarray Z) :=
  neighbors ← _count_neighbors e (grid e) y x;
  cell ← nd_get (grid e) y x;
  if bool_decide (cell = 1) then
    if bool_decide (neighbors < 2 ∨ neighbors > 3) then nd_set new_grid y x 0
    else mret new_grid
  else
    if bool_decide (neighbors = 3) then nd_set new_grid y x 1
    else mret new_grid.

(** [step]: the new state of the object and the returned grid. *)
Definition step (e : engine) : result (engine * ndarray Z) :=
  new_grid ← for_each (py_range (height e)) (fun y new_grid =>
      for_each (py_range (width e)) (fun x new_grid => step_cell e y x new_grid)
        new_grid) (grid e);
  mret (set_grid e new_grid, new_grid).

Definition run_simulation (e : engine) (steps : Z) : result (engine * ndarray Z) :=
  e' ← for_each (py_range steps) (fun _ e0 => r ← step e0; mret r.1) e;
  mret (e', grid e').

(** [__init__] once the images are arrays: the shape of the start grid
    and the two tables. *)
Definition init_engine (shape : Z * Z) (g : ndarray Z)
    (h_tunnel_map v_tunnel_map : ndarray color) : result engine :=
  h ← _build_wormhole_connections shape.1 shape.2 h_tunnel_map;
  v ← _build_wormhole_connections shape.1 shape.2 v_tunnel_map;
  mret (Engine g shape.1 shape.2 h v).

(** ** Images and the driver

    An image is taken as the array NumPy gets from it: [Image.open],
    [convert] and [Image.fromarray] are outside the model. *)

(** [(img_array > 128).astype(np.uint8)], on the grey values of the start
    image: white is alive. *)
Definition _image_to_grid (img_array : ndarray Z) : ndarray Z :=
  (λ row : list Z, (λ v : Z, if bool_decide (v > 128) then 1 else 0) <$> row)
    <$> img_array.

(** [grid.astype(np.uint8) * 255], the array handed to [Image.fromarray];
    the product is taken in [uint8]. *)
Definition _grid_to_image (g : ndarray Z) : ndarray Z :=
  (λ row : list Z, (λ v : Z, ((v mod 256) * 255) mod 256) <$> row) <$> g.

(** [a.shape].  An array without rows is given zero columns: no loop of
    the engine runs on it. *)
Definition nd_shape {A : Type} (a : ndarray A) : Z * Z :=
  (Z.of_nat (length a),
   match a with
   | [] => 0
   | row :: _ => Z.of_nat (length row)
   end).

(** The constructor, from the arrays of the three images. *)
Definition __init__ (start_img : ndarray Z)
    (horizontal_tunnel vertical_tunnel : ndarray color) : result engine :=
  let g := _image_to_grid start_img in
  init_engine (nd_shape g) g horizontal_tunnel vertical_tunnel.

(** How a run of [process_directory] ends: it returns, an exception of the
    engine escapes, or the local [grid] is read before any branch of the
    [if]/[elif] chain has bound it. *)
Inductive outcome (A : Type) : Type :=
  | Finished (a : A)
  | Raised (e : exn)
  | RaisedUnboundLocal.

Arguments Finished {A} a.
Arguments Raised {A} e.
Arguments RaisedUnboundLocal {A}.

Definition iterations : list Z := [1; 10; 100; 1000].

(** The [if i == 1 ... elif i == 1000] chain: the argument given to
    [run_simulation], [None] when no branch is taken. *)
Definition increment (i : Z) : option Z :=
  if bool_decide (i = 1) then Some 1
  else if bool_decide (i = 10) then Some 9
  else if bool_decide (i = 100) then Some 90
  else if bool_decide (i = 1000) then Some 900
  else None.

(** The loop of [process_directory].  [grid] is the local variable, unbound
    at first; [saved] lists the files written so far, [(i, a)] for the
    file [i.png] with the pixels [a]. *)
Fixpoint save_iterations (todo : list Z) (game : engine)
    (grid : option (ndarray Z)) (saved : list (Z * ndarray Z))
  : outcome (engine * list (Z * ndarray Z)) :=
  match todo with
  | [] => Finished (game, saved)
  | i :: todo' =>
      match
        match increment i with
        | Some k =>
            match run_simulation game k with
            | Ok r => Finished (r.1, Some r.2)
            | Raise err => Raised err
            end
        | None => Finished (game, grid)
        end
      with
      | Finished (game', Some g) =>
          save_iterations todo' game' (Some g) (saved ++ [(i, _grid_to_image g)])
      | Finished (_, None) => RaisedUnboundLocal
      | Raised err => Raised err
      | RaisedUnboundLocal => RaisedUnboundLocal
      end
  end.

(** [process_directory] on what the directory holds: the arrays of its
    three images, or [None] when one of the files is missing.  The result
    lists the files written. *)
Definition process_directory
    (inputs : option (ndarray Z * ndarray color * ndarray color))
  : outcome (list (Z * ndarray Z)) :=
  match inputs with
  | None => Finished []
  | Some (start_img, h_tunnel, v_tunnel) =>
      match __init__ start_img h_tunnel v_tunnel with
      | Raise err => Raised err
      | Ok game =>
          match save_iterations iterations game None [] with
          | Finished r => Finished r.2
          | Raised err => Raised err
          | RaisedUnboundLocal => RaisedUnboundLocal
          end
      end
  end.

(** ** Vocabulary of the statements *)

(** The cells in the order the nested loops visit them. *)
Definition positions (h w : Z) : list pos :=
  y ← py_range h; x ← py_range w; [(y, x)].

(** [a.shape == (h, w)] *)
Definition shape_ok {A : Type} (h w : Z) (a : ndarray A) : Prop :=
  Z.of_nat (length a) = h ∧ Forall (λ row, Z.of_nat (length row) = w) a.

(** A grid as [_image_to_grid] makes it: every cell is 0 or 1. *)
Definition binary (g : ndarray Z) : Prop :=
  Forall (Forall (λ v, v = 0 ∨ v = 1)) g.

(** The invariant of the object: [height, width = grid.shape] and the
    grid holds zeros and ones. *)
Definition wf_engine (e : engine) : Prop :=
  shape_ok (height e) (width e) (grid e) ∧ binary (grid e).

(** Reading by natural-number indices. *)
Definition lookup2 {A : Type} (a : ndarray A) (y x : Z) : option A :=
  row ← a !! Z.to_nat y; row !! Z.to_nat x.

(** The pixel at a position, black where the array has none. *)
Definition pixel_at (tunnel_map : ndarray color) (p : pos) : color :=
  match nd_get tunnel_map p.1 p.2 with
  | Ok c => c
  | Raise _ => black
  end.

(** The scanned positions that carry colour [c], in scan order. *)
Definition color_positions (h w : Z) (tunnel_map : ndarray color) (c : color)
  : list pos :=
  filter (λ p, pixel_at tunnel_map p = c) (positions h w).

(** The first loop of the builder when no read fails. *)
Definition scan_pure (tunnel_map : ndarray color) (ps : list pos)
  : color_groups :=
  foldl (λ d p, if bool_decide (pixel_at tunnel_map p ≠ black)
                then dd_append d (pixel_at tunnel_map p) p else d) [] ps.

(** A table is symmetric when every entry has its mirror entry. *)
Definition symmetric_table (t : gmap pos pos) : Prop :=
  ∀ k v, t !! k = Some v → t !! v = Some k.

(** What the direction [(dy, dx)] contributes to the neighbour count of
    [(y, x)]: the cell of [g] at the resolved neighbour, and nothing when
    that coordinate lies outside the grid. *)
Definition neighbor_cell (e : engine) (g : ndarray Z) (y x dy dx : Z) : Z :=
  match _get_wormhole_neighbor e y x dy dx with
  | Ok (ny, nx) =>
      if bool_decide ((0 ≤ ny < height e) ∧ (0 ≤ nx < width e))
      then match nd_get g ny nx with
           | Ok v => v
           | Raise _ => 0
           end
      else 0
  | Raise _ => 0
  end.

(** The eight neighbour cells added up. *)
Definition neighbor_sum (e : engine) (g : ndarray Z) (y x : Z) : Z :=
  neighbor_cell e g y x (-1) (-1) + neighbor_cell e g y x (-1) 0
  + neighbor_cell e g y x (-1) 1 + neighbor_cell e g y x 0 (-1)
  + neighbor_cell e g y x 0 1 + neighbor_cell e g y x 1 (-1)
  + neighbor_cell e g y x 1 0 + neighbor_cell e g y x 1 1.

(** The update [step] makes to one cell, given its neighbour count. *)
Definition next_cell (old n : Z) : Z :=
  if bool_decide (old = 1) then
    if bool_decide (n < 2 ∨ n > 3) then 0 else old
  else
    if bool_decide (n = 3) then 1 else old.

(** [step] applied [n] times to the object. *)
Fixpoint step_n (n : nat) (e : engine) : result engine :=
  match n with
  | O => Ok e
  | S n' => r ← step e; step_n n' r.1
  end.

(** *** Standard Game of Life on a torus

    Written from the rules of the game, not from the engine: the eight
    neighbours of a cell are taken modulo the dimensions, and every cell
    of the next generation is computed from the current one. *)

Definition torus_cell (h w : Z) (g : ndarray Z) (y x : Z) : Z :=
  default 0 (lookup2 g (y mod h) (x mod w)).

Definition torus_offsets : list (Z * Z) :=
  [(-1,-1); (-1,0); (-1,1); (0,-1); (0,1); (1,-1); (1,0); (1,1)].

Definition torus_count (h w : Z) (g : ndarray Z) (y x : Z) : Z :=
  foldr (λ d acc, torus_cell h w g (y + d.1) (x + d.2) + acc) 0 torus_offsets.

Definition life_rule (alive : bool) (n : Z) : bool :=
  if alive then bool_decide (n = 2 ∨ n = 3) else bool_decide (n = 3).

Definition torus_step (h w : Z) (g : ndarray Z) : ndarray Z :=
  (λ y, (λ x,
     if life_rule (bool_decide (torus_cell h w g y x = 1)) (torus_count h w g y x)
     then 1 else 0) <$> py_range w) <$> py_range h.

(** A grid without a live cell. *)
Definition all_dead (g : ndarray Z) : Prop :=
  Forall (Forall (λ v, v = 0)) g.

(** A tunnel map without a marker. *)
Definition all_black (tunnel_map : ndarray color) : Prop :=
  Forall (Forall (λ c, c = black)) tunnel_map.

(** The same object with other tables. *)
Definition with_tables (e : engine) (h v : gmap pos pos) : engine :=
  {| grid := grid e; height := height e; width := width e;
     h_wormholes := h; v_wormholes := v |}.

(** Well-formedness of a concrete object, by computation. *)
Ltac concrete_wf :=
  repeat first [ reflexivity | by left | by right | constructor ].

(** ** Sanity checks on concrete inputs *)

Definition blinker : ndarray Z := [[0;0;0];[1;1;1];[0;0;0]].
Definition blinker_engine : engine := Engine blinker 3 3 ∅ ∅.

Definition blinker5 : ndarray Z :=
  [[0;0;0;0;0]; [0;0;0;0;0]; [0;1;1;1;0]; [0;0;0;0;0]; [0;0;0;0;0]].
Definition blinker5_vertical : ndarray Z :=
  [[0;0;0;0;0]; [0;0;1;0;0]; [0;0;1;0;0]; [0;0;1;0;0]; [0;0;0;0;0]].
Definition blinker5_engine : engine := Engine blinker5 5 5 ∅ ∅.

(** A 3x3 object with one wormhole, between the ends of its top row, in
    both tables. *)
Definition wormhole_tunnel : ndarray color :=
  [[(255,0,0); black; (255,0,0)]; [black; black; black]; [black; black; black]].
Definition wormhole_table : gmap pos pos :=
  <[(0,2) := (0,0)]> (<[(0,0) := (0,2)]> ∅).
Definition wormhole_engine : engine :=
  Engine blinker 3 3 wormhole_table wormhole_table.

Example blinker_step_1 :
  step blinker_engine
  = Ok (set_grid blinker_engine [[1;1;1];[1;1;1];[1;1;1]], [[1;1;1];[1;1;1];[1;1;1]]).
Proof. vm_compute. reflexivity. Qed.

Example build_row_pair :
  _build_wormhole_connections 1 3 [[(255,0,0); black; (255,0,0)]]
  = Ok (<[(0,2) := (0,0)]> (<[(0,0) := (0,2)]> ∅)).
Proof. vm_compute. reflexivity. Qed.

(** * Properties *)

(** ** The error monad and the loops *)

Lemma bind_Ok {A B} (f : A → result B) (a : A) : (Ok a ≫= f) = f a.
Proof. reflexivity. Qed.

Lemma bind_Ok_inv {A B} (f : A → result B) (m : result A) (b : B) :
  m ≫= f = Ok b → ∃ a, m = Ok a ∧ f a = Ok b.
Proof. destruct m as [a|err]; [eauto | discriminate]. Qed.

Lemma for_each_app {A S} (xs ys : list A) (body : A → S → result S) (s : S) :
  for_each (xs ++ ys) body s = for_each xs body s ≫= for_each ys body.
Proof.
  revert s. induction xs as [|x xs IH]; intros s; simpl; [done|].
  destruct (body x s) as [s'|err]; simpl; [apply IH | done].
Qed.

(** A loop whose body never fails is a left fold. *)
Lemma for_each_pure {A S} (xs : list A) (body : A → S → result S)
    (f : S → A → S) (s : S) :
  (∀ x s0, x ∈ xs → body x s0 = Ok (f s0 x)) →
  for_each xs body s = Ok (foldl f s xs).
Proof.
  revert s. induction xs as [|x xs IH]; intros s Hb; simpl; [done|].
  rewrite Hb by left. simpl. apply IH. intros. apply Hb. by right.
Qed.

Lemma for_each_row {S} (y : Z) (xs : list Z) (f : Z → Z → S → result S) (s : S) :
  for_each (x ← xs; [(y, x)]) (λ p, f p.1 p.2) s = for_each xs (f y) s.
Proof.
  revert s. induction xs as [|x xs IH]; intros s; simpl; [done|].
  destruct (f y x s) as [s'|err]; simpl; [apply IH | done].
Qed.

Lemma for_each_nested {S} (ys xs : list Z) (f : Z → Z → S → result S) (s : S) :
  for_each ys (λ y s0, for_each xs (f y) s0) s
  = for_each (y ← ys; x ← xs; [(y, x)]) (λ p, f p.1 p.2) s.
Proof.
  revert s. induction ys as [|y ys IH]; intros s; [done|].
  change ((y :: ys) ≫= _) with ((x ← xs; [(y, x)]) ++ (ys ≫= λ y, x ← xs; [(y, x)])).
  rewrite for_each_app, for_each_row. simpl.
  destruct (for_each xs (f y) s) as [s'|err]; simpl; [apply IH | done].
Qed.

Lemma for_each_positions {S} (h w : Z) (f : Z → Z → S → result S) (s : S) :
  for_each (py_range h) (λ y s0, for_each (py_range w) (f y) s0) s
  = for_each (positions h w) (λ p, f p.1 p.2) s.
Proof. apply for_each_nested. Qed.

Lemma elem_of_py_range (n i : Z) : i ∈ py_range n ↔ 0 ≤ i < n.
Proof.
  unfold py_range. rewrite list_elem_of_fmap. split.
  - intros (k & -> & Hk). apply elem_of_seq in Hk. lia.
  - intros Hi. exists (Z.to_nat i). split; [lia|]. apply elem_of_seq. lia.
Qed.

Lemma NoDup_py_range (n : Z) : NoDup (py_range n).
Proof.
  unfold py_range. apply NoDup_fmap_2; [|apply NoDup_seq].
  intros a b. lia.
Qed.

Lemma elem_of_positions (h w : Z) (p : pos) :
  p ∈ positions h w ↔ (0 ≤ p.1 < h) ∧ (0 ≤ p.2 < w).
Proof.
  unfold positions. rewrite list_elem_of_bind. split.
  - intros (y & Hp & Hy). apply list_elem_of_bind in Hp as (x & Hp & Hx).
    apply list_elem_of_singleton in Hp as ->. simpl.
    apply elem_of_py_range in Hy, Hx. done.
  - intros [Hy Hx]. exists p.1. split; [|by apply elem_of_py_range].
    apply list_elem_of_bind. exists p.2. split; [|by apply elem_of_py_range].
    destruct p. simpl. by left.
Qed.

Lemma NoDup_positions (h w : Z) : NoDup (positions h w).
Proof.
  unfold positions. apply NoDup_bind; [| |apply NoDup_py_range].
  - intros y1 y2 p _ _ H1 H2.
    apply list_elem_of_bind in H1 as (x1 & H1 & _).
    apply list_elem_of_bind in H2 as (x2 & H2 & _).
    apply list_elem_of_singleton in H1, H2. congruence.
  - intros y _. apply NoDup_bind; [| |apply NoDup_py_range].
    + intros x1 x2 p _ _ H1 H2. apply list_elem_of_singleton in H1, H2. congruence.
    + intros x _. apply NoDup_singleton.
Qed.

(** ** Neighbour resolution *)

Lemma py_mod_ok (a m : Z) : m ≠ 0 → py_mod a m = Ok (a mod m).
Proof. intros Hm. unfold py_mod. by rewrite bool_decide_false. Qed.

Lemma step_past_differs (n d m : Z) :
  d = 1 ∨ d = -1 → 1 < m → (n + d) mod m ≠ n.
Proof.
  intros Hd Hm Heq.
  assert (Hn : 0 ≤ n < m) by (rewrite <- Heq; apply Z.mod_pos_bound; lia).
  destruct Hd as [-> | ->].
  - destruct (decide (n + 1 < m)).
    + rewrite Z.mod_small in Heq; lia.
    + replace (n + 1) with (0 + 1 * m) in Heq by lia.
      rewrite Z.mod_add, Z.mod_small in Heq; lia.
  - destruct (decide (0 ≤ n + -1)).
    + rewrite Z.mod_small in Heq; lia.
    + replace (n + -1) with (m - 1 + (-1) * m) in Heq by lia.
      rewrite Z.mod_add, Z.mod_small in Heq; lia.
Qed.

(** C3 (as amended): from a key [(y, x)] of the horizontal table paired
    with [(ny, nx)], a pure horizontal move [dx = 1] or [dx = -1] on a grid
    of non-zero width resolves to [(ny, (nx + dx) mod width)], the row of
    the pair and the column one step past it; that cell differs from the
    pair as soon as the width is at least two.  Symmetrically for a pure
    vertical move and the vertical table. *)
Theorem straight_wormhole_exit (e : engine) (y x ny nx d : Z) :
  d = 1 ∨ d = -1 →
  (h_wormholes e !! (y, x) = Some (ny, nx) → width e ≠ 0 →
     _get_wormhole_neighbor e y x 0 d = Ok (ny, (nx + d) mod width e)
     ∧ (1 < width e → (ny, (nx + d) mod width e) ≠ (ny, nx)))
  ∧ (v_wormholes e !! (y, x) = Some (ny, nx) → height e ≠ 0 →
     _get_wormhole_neighbor e y x d 0 = Ok ((ny + d) mod height e, nx)
     ∧ (1 < height e → ((ny + d) mod height e, nx) ≠ (ny, nx))).
Proof.
  intros Hd. split; intros Hkey Hdim; (split; [|intros Hbig Heq]).
  - unfold _get_wormhole_neighbor.
    rewrite bool_decide_true, Hkey by lia.
    case_bool_decide; rewrite py_mod_ok by done; simpl;
      repeat f_equal; lia.
  - apply (step_past_differs nx d (width e)); [done..|congruence].
  - unfold _get_wormhole_neighbor, vertical_neighbor.
    rewrite bool_decide_false, bool_decide_true, Hkey by lia.
    case_bool_decide; rewrite py_mod_ok by done; simpl;
      repeat f_equal; lia.
  - apply (step_past_differs ny d (height e)); [done..|congruence].
Qed.

Lemma straight_wormhole_exit_witness :
  _get_wormhole_neighbor
    (Engine [[0;0;0]] 1 3 {[ (0,2) := (0,0); (0,0) := (0,2) ]} ∅) 0 2 0 1
  = Ok (0, 1).
Proof.
  apply (straight_wormhole_exit
           (Engine [[0;0;0]] 1 3 {[ (0,2) := (0,0); (0,0) := (0,2) ]} ∅)
           0 2 0 0 1); [by left | reflexivity | done].
Defined.

(** C3, counterexample: on a grid of width one the step past the pair
    wraps onto the pair.  The table is the one built from a 2x1 tunnel map
    whose two pixels share a colour. *)
Lemma straight_wormhole_lands_on_pair :
  ∃ t, _build_wormhole_connections 2 1 [[(255,0,0)]; [(255,0,0)]] = Ok t
       ∧ t !! (0, 0) = Some (1, 0)
       ∧ _get_wormhole_neighbor (Engine [[0]; [0]] 2 1 t ∅) 0 0 0 1 = Ok (1, 0).
Proof. eexists. split; [vm_compute; reflexivity|]. split; vm_compute; reflexivity. Qed.

(** C4: for a diagonal direction on a grid with non-zero dimensions the
    four wormhole checks are tried in the order top, right, bottom, left
    and the first applicable one decides.  In particular a key of the
    vertical table moving up resolves through the vertical table to
    [((ny - 1) mod height, (nx + dx) mod width)], whatever the horizontal
    table holds. *)
Theorem diagonal_precedence (e : engine) (y x dy dx : Z) :
  dy ≠ 0 → dx ≠ 0 → height e ≠ 0 → width e ≠ 0 →
  (∀ ny nx, dy < 0 → v_wormholes e !! (y, x) = Some (ny, nx) →
     _get_wormhole_neighbor e y x dy dx
     = Ok ((ny - 1) mod height e, (nx + dx) mod width e))
  ∧ (∀ ny nx, dx > 0 → h_wormholes e !! (y, x) = Some (ny, nx) →
     ¬ (dy < 0 ∧ is_Some (v_wormholes e !! (y, x))) →
     _get_wormhole_neighbor e y x dy dx
     = Ok ((ny + dy) mod height e, (nx + 1) mod width e))
  ∧ (∀ ny nx, dy > 0 → v_wormholes e !! (y, x) = Some (ny, nx) →
     ¬ (dx > 0 ∧ is_Some (h_wormholes e !! (y, x))) →
     _get_wormhole_neighbor e y x dy dx
     = Ok ((ny + 1) mod height e, (nx + dx) mod width e))
  ∧ (∀ ny nx, dx < 0 → h_wormholes e !! (y, x) = Some (ny, nx) →
     v_wormholes e !! (y, x) = None →
     _get_wormhole_neighbor e y x dy dx
     = Ok ((ny + dy) mod height e, (nx - 1) mod width e))
  ∧ (h_wormholes e !! (y, x) = None → v_wormholes e !! (y, x) = None →
     _get_wormhole_neighbor e y x dy dx
     = Ok ((y + dy) mod height e, (x + dx) mod width e)).
Proof.
  intros Hdy Hdx Hh Hw.
  unfold _get_wormhole_neighbor, vertical_neighbor, diagonal_neighbor,
    regular_neighbor.
  rewrite (bool_decide_false (dy = 0 ∧ _)), (bool_decide_false (dx = 0 ∧ _)),
    (bool_decide_true (dy ≠ 0 ∧ _)) by lia.
  repeat split.
  - intros ny nx Hup Hv. rewrite (bool_decide_true (dy < 0)), Hv by done.
    by rewrite !py_mod_ok.
  - intros ny nx Hright Hkey Hnot.
    destruct (v_wormholes e !! (y, x)) as [[vy vx]|] eqn:Hv.
    + rewrite (bool_decide_false (dy < 0)) by (intros ?; apply Hnot; eauto).
      rewrite (bool_decide_true (dx > 0)), Hkey by done. by rewrite !py_mod_ok.
    + rewrite (bool_decide_true (dx > 0)), Hkey by done.
      rewrite !py_mod_ok by done. by case_bool_decide.
  - intros ny nx Hdown Hv Hnot.
    rewrite (bool_decide_false (dy < 0)), (bool_decide_true (dy > 0)), Hv by lia.
    destruct (h_wormholes e !! (y, x)) as [[ky kx]|] eqn:Hk.
    + rewrite (bool_decide_false (dx > 0)) by (intros ?; apply Hnot; eauto).
      by rewrite !py_mod_ok.
    + rewrite !py_mod_ok by done. by case_bool_decide.
  - intros ny nx Hleft Hkey Hv.
    rewrite Hv, Hkey.
    rewrite (bool_decide_false (dx > 0)), (bool_decide_true (dx < 0)) by lia.
    rewrite !py_mod_ok by done. by repeat case_bool_decide.
  - intros Hk Hv. rewrite Hk, Hv. rewrite !py_mod_ok by done.
    by repeat case_bool_decide.
Qed.

(** A cell in both tables, moving up and to the right: the vertical table
    decides. *)
Lemma diagonal_precedence_witness :
  _get_wormhole_neighbor
    (Engine [[0;0;0];[0;0;0];[0;0;0]] 3 3
       {[ (1,1) := (0,0); (0,0) := (1,1) ]} {[ (1,1) := (2,2); (2,2) := (1,1) ]})
    1 1 (-1) 1
  = Ok (1, 0).
Proof.
  pose proof (diagonal_precedence
    (Engine [[0;0;0];[0;0;0];[0;0;0]] 3 3
       {[ (1,1) := (0,0); (0,0) := (1,1) ]} {[ (1,1) := (2,2); (2,2) := (1,1) ]})
    1 1 (-1) 1 ltac:(lia) ltac:(lia) ltac:(simpl; lia) ltac:(simpl; lia))
    as (Htop & _).
  apply (Htop 2 2); [lia | reflexivity].
Defined.

(** ** Running several steps *)

Lemma for_each_steps (xs : list Z) (e : engine) :
  for_each xs (λ _ e0, r ← step e0; mret r.1) e = step_n (length xs) e.
Proof.
  revert e. induction xs as [|x xs IH]; intros e; simpl; [done|].
  destruct (step e) as [r|err]; simpl; [apply IH | done].
Qed.

Lemma length_py_range (n : Z) : length (py_range n) = Z.to_nat n.
Proof. unfold py_range. by rewrite length_fmap, length_seq. Qed.

Lemma run_simulation_step_n (e : engine) (steps : Z) :
  run_simulation e steps = e' ← step_n (Z.to_nat steps) e; mret (e', grid e').
Proof. unfold run_simulation. by rewrite for_each_steps, length_py_range. Qed.

Lemma step_n_add (n m : nat) (e : engine) :
  step_n (n + m) e = step_n n e ≫= step_n m.
Proof.
  revert e. induction n as [|n IH]; intros e; simpl; [done|].
  destruct (step e) as [r|err]; simpl; [apply IH | done].
Qed.

(** C8: [run_simulation e steps] applies [step] exactly [steps] times and
    returns the grid of the object; zero steps leave the object as it was
    and return its grid; running [a] steps and then [b] steps is running
    [a + b] steps. *)
Theorem run_simulation_compose (e : engine) (a b : Z) :
  0 ≤ a → 0 ≤ b →
  run_simulation e 0 = Ok (e, grid e)
  ∧ run_simulation e a = (e' ← step_n (Z.to_nat a) e; mret (e', grid e'))
  ∧ run_simulation e (a + b) = (r ← run_simulation e a; run_simulation r.1 b).
Proof.
  intros Ha Hb. split; [done|]. split; [apply run_simulation_step_n|].
  rewrite !run_simulation_step_n, Z2Nat.inj_add, step_n_add by done.
  destruct (step_n (Z.to_nat a) e) as [e1|err]; simpl; [|done].
  by rewrite run_simulation_step_n.
Qed.

Lemma run_simulation_compose_witness :
  run_simulation blinker_engine (1 + 1)
  = (r ← run_simulation blinker_engine 1; run_simulation r.1 1).
Proof.
  exact (proj2 (proj2 (run_simulation_compose blinker_engine 1 1
                         ltac:(lia) ltac:(lia)))).
Defined.

(** C10: a negative step count makes [range(steps)] empty: no step is
    taken, no exception is raised, and the current grid is returned, as
    for [run_simulation(0)]. *)
Theorem run_simulation_negative (e : engine) (steps : Z) :
  steps < 0 →
  run_simulation e steps = Ok (e, grid e)
  ∧ run_simulation e steps = run_simulation e 0.
Proof.
  intros Hneg. rewrite !run_simulation_step_n.
  replace (Z.to_nat steps) with 0%nat by lia. done.
Qed.

Lemma run_simulation_negative_witness :
  run_simulation blinker_engine (-5) = Ok (blinker_engine, blinker).
Proof. exact (proj1 (run_simulation_negative blinker_engine (-5) ltac:(lia))). Defined.

(** ** The blinker *)

(** C9, counterexample: on the 3x3 torus one step does not turn the
    horizontal blinker into the vertical one. *)
Lemma blinker_3x3_not_vertical :
  step blinker_engine
  = Ok (set_grid blinker_engine [[1;1;1];[1;1;1];[1;1;1]], [[1;1;1];[1;1;1];[1;1;1]])
  ∧ [[1;1;1];[1;1;1];[1;1;1]] ≠ [[0;1;0];[0;1;0];[0;1;0]].
Proof. split; [vm_compute; reflexivity | discriminate]. Qed.

(** C9 (as amended): on the 3x3 torus every cell has the other eight
    cells as neighbours, so the horizontal blinker fills the grid in one
    step and the full grid dies in the next; on a 5x5 torus the blinker
    does oscillate with period two. *)
Theorem blinker_on_torus :
  (run_simulation blinker_engine 1
     = Ok (set_grid blinker_engine [[1;1;1];[1;1;1];[1;1;1]],
           [[1;1;1];[1;1;1];[1;1;1]])
   ∧ run_simulation blinker_engine 2
     = Ok (set_grid blinker_engine [[0;0;0];[0;0;0];[0;0;0]],
           [[0;0;0];[0;0;0];[0;0;0]]))
  ∧ (run_simulation blinker5_engine 1
     = Ok (set_grid blinker5_engine blinker5_vertical, blinker5_vertical)
   ∧ run_simulation blinker5_engine 2 = Ok (blinker5_engine, blinker5)).
Proof. repeat split; vm_compute; reflexivity. Qed.

(** ** Arrays *)

Lemma np_index_nonneg (n : nat) (i : Z) :
  0 ≤ i →
  np_index n i = if bool_decide (i < Z.of_nat n) then Some (Z.to_nat i) else None.
Proof.
  intros Hi. unfold np_index.
  repeat case_bool_decide; try done; lia.
Qed.

Lemma nd_get_lookup2 {A} (a : ndarray A) (y x : Z) :
  0 ≤ y → 0 ≤ x →
  nd_get a y x = match lookup2 a y x with
                 | Some v => Ok v
                 | None => Raise IndexError
                 end.
Proof.
  intros Hy Hx. unfold nd_get, lookup2. rewrite np_index_nonneg by done.
  case_bool_decide as Hlt.
  - destruct (a !! Z.to_nat y) as [row|]; simpl; [|done].
    rewrite np_index_nonneg by done. case_bool_decide as Hlt'; [done|].
    rewrite lookup_ge_None_2 by lia. done.
  - rewrite lookup_ge_None_2 by lia. done.
Qed.

Lemma lookup2_is_Some {A} (h w : Z) (a : ndarray A) (y x : Z) :
  shape_ok h w a → 0 ≤ y < h → 0 ≤ x < w → is_Some (lookup2 a y x).
Proof.
  intros [Hlen Hrows] Hy Hx. unfold lookup2.
  destruct (lookup_lt_is_Some_2 a (Z.to_nat y)) as [row Hrow]; [lia|].
  rewrite Hrow. simpl. apply lookup_lt_is_Some_2.
  rewrite Forall_lookup in Hrows. specialize (Hrows _ _ Hrow). simpl in Hrows. lia.
Qed.

Lemma lookup2_binary (g : ndarray Z) (y x v : Z) :
  binary g → lookup2 g y x = Some v → v = 0 ∨ v = 1.
Proof.
  unfold binary, lookup2. intros Hbin Hv.
  destruct (g !! Z.to_nat y) as [row|] eqn:Hrow; simplify_eq/=.
  rewrite Forall_lookup in Hbin. specialize (Hbin _ _ Hrow).
  rewrite Forall_lookup in Hbin. by apply (Hbin _ _ Hv).
Qed.

Lemma nd_set_spec {A} (h w : Z) (a : ndarray A) (y x : Z) (v : A) :
  shape_ok h w a → 0 ≤ y < h → 0 ≤ x < w →
  ∃ a', nd_set a y x v = Ok a' ∧ shape_ok h w a'
        ∧ ∀ y' x', 0 ≤ y' → 0 ≤ x' →
            lookup2 a' y' x'
            = if decide ((y', x') = (y, x)) then Some v else lookup2 a y' x'.
Proof.
  intros [Hlen Hrows] Hy Hx. unfold nd_set.
  rewrite np_index_nonneg, bool_decide_true by lia.
  destruct (lookup_lt_is_Some_2 a (Z.to_nat y)) as [row Hrow]; [lia|].
  rewrite Hrow.
  assert (Hw : Z.of_nat (length row) = w).
  { rewrite Forall_lookup in Hrows. apply (Hrows _ _ Hrow). }
  rewrite np_index_nonneg, bool_decide_true by lia.
  eexists. split; [done|]. split.
  - split; [by rewrite length_insert|].
    apply Forall_insert; [done|]. by rewrite length_insert.
  - intros y' x' Hy' Hx'. unfold lookup2. case_decide as Heq.
    + simplify_eq. rewrite list_lookup_insert_eq by lia. simpl.
      apply list_lookup_insert_eq. lia.
    + destruct (decide (y' = y)) as [->|Hne].
      * rewrite list_lookup_insert_eq by lia. simpl. rewrite Hrow. simpl.
        apply list_lookup_insert_ne. intros ?. apply Heq. f_equal. lia.
      * rewrite list_lookup_insert_ne by lia. done.
Qed.

(** Two arrays of one shape with the same cells are the same array. *)
Lemma ndarray_ext {A} (h w : Z) (a b : ndarray A) :
  shape_ok h w a → shape_ok h w b →
  (∀ y x, 0 ≤ y < h → 0 ≤ x < w → lookup2 a y x = lookup2 b y x) →
  a = b.
Proof.
  intros [Ha Hra] [Hb Hrb] Hcells. apply list_eq_same_length with (length a);
    [lia | lia |].
  intros i ra rb Hi Hia Hib. rewrite Forall_lookup in Hra, Hrb.
  pose proof (Hra _ _ Hia) as Hla. pose proof (Hrb _ _ Hib) as Hlb.
  simpl in Hla, Hlb.
  apply list_eq_same_length with (length ra); [lia | lia |].
  intros j va vb Hj Hja Hjb.
  specialize (Hcells (Z.of_nat i) (Z.of_nat j) ltac:(lia) ltac:(lia)).
  unfold lookup2 in Hcells. rewrite !Nat2Z.id, Hia, Hib in Hcells.
  simpl in Hcells. congruence.
Qed.

(** ** Counting neighbours *)

Lemma resolve_total (e : engine) (y x dy dx : Z) :
  height e ≠ 0 → width e ≠ 0 → ∃ p, _get_wormhole_neighbor e y x dy dx = Ok p.
Proof.
  intros Hh Hw.
  unfold _get_wormhole_neighbor, vertical_neighbor, diagonal_neighbor,
    regular_neighbor.
  repeat case_match; rewrite ?py_mod_ok by done; simpl; eauto.
Qed.

Lemma count_one_self (e : engine) (g : ndarray Z) (y x c : Z) :
  count_one e g y x 0 0 c = Ok c.
Proof. reflexivity. Qed.

Lemma count_one_spec (e : engine) (g : ndarray Z) (y x dy dx c : Z) :
  shape_ok (height e) (width e) g → height e ≠ 0 → width e ≠ 0 →
  ∃ v, count_one e g y x dy dx c = Ok (c + v)
       ∧ (dy = 0 ∧ dx = 0 → v = 0)
       ∧ (binary g → 0 ≤ v ≤ 1).
Proof.
  intros Hshape Hh Hw. unfold count_one. case_bool_decide as Hself.
  { exists 0. split; [simpl; f_equal; lia | split; [done|lia]]. }
  destruct (resolve_total e y x dy dx Hh Hw) as [[ny nx] ->]. simpl.
  case_bool_decide as Hin.
  - destruct Hin as [Hy Hx].
    destruct (lookup2_is_Some _ _ g ny nx Hshape Hy Hx) as [v Hv].
    rewrite nd_get_lookup2, Hv by lia. exists v. split; [done|].
    split; [tauto|]. intros Hbin. destruct (lookup2_binary _ _ _ _ Hbin Hv); lia.
  - exists 0. split; [simpl; f_equal; lia | split; [done|lia]].
Qed.

Lemma count_total (e : engine) (g : ndarray Z) (y x : Z) :
  shape_ok (height e) (width e) g → height e ≠ 0 → width e ≠ 0 →
  ∃ n, _count_neighbors e g y x = Ok n ∧ (binary g → 0 ≤ n ≤ 8).
Proof.
  intros Hshape Hh Hw. unfold _count_neighbors, directions.
  cbn [for_each].
  repeat match goal with
  | |- context [count_one e g y x ?dy ?dx ?c] =>
      let v := fresh "v" in
      let Hself := fresh "Hself" in
      let Hv := fresh "Hv" in
      destruct (count_one_spec e g y x dy dx c Hshape Hh Hw)
        as (v & -> & Hself & Hv);
      rewrite ?bind_Ok
  end.
  eexists. split; [reflexivity|]. intros Hbin.
  repeat match goal with H : binary g → _ |- _ => specialize (H Hbin) end.
  assert (v3 = 0) by (apply Hself3; done). lia.
Qed.

(** ** One step *)

(** Loop invariants: [I pre s] holds of the state once the elements of
    [pre] have been visited. *)
Lemma for_each_inv_from {A S} (I : list A → S → Prop) (body : A → S → result S)
    (all xs pre : list A) (s : S) :
  all = pre ++ xs → I pre s →
  (∀ pre' x post s0, all = pre' ++ x :: post → I pre' s0 →
     ∃ s1, body x s0 = Ok s1 ∧ I (pre' ++ [x]) s1) →
  ∃ s', for_each xs body s = Ok s' ∧ I all s'.
Proof.
  intros Hall Hpre Hbody. revert pre s Hall Hpre.
  induction xs as [|x xs IH]; intros pre s Hall Hpre.
  - exists s. rewrite app_nil_r in Hall. by subst.
  - destruct (Hbody pre x xs s Hall Hpre) as (s1 & Hs1 & HI).
    simpl. rewrite Hs1. simpl. apply (IH (pre ++ [x])); [|done].
    by rewrite <- app_assoc.
Qed.

Lemma for_each_inv {A S} (I : list A → S → Prop) (body : A → S → result S)
    (xs : list A) (s : S) :
  I [] s →
  (∀ pre x post s0, xs = pre ++ x :: post → I pre s0 →
     ∃ s1, body x s0 = Ok s1 ∧ I (pre ++ [x]) s1) →
  ∃ s', for_each xs body s = Ok s' ∧ I xs s'.
Proof. intros. by apply for_each_inv_from with (pre := []). Qed.

Lemma step_cell_spec (e : engine) (y x : Z) (ng : ndarray Z) :
  shape_ok (height e) (width e) (grid e) → shape_ok (height e) (width e) ng →
  0 ≤ y < height e → 0 ≤ x < width e →
  lookup2 ng y x = lookup2 (grid e) y x →
  ∃ n old ng',
    _count_neighbors e (grid e) y x = Ok n
    ∧ lookup2 (grid e) y x = Some old
    ∧ step_cell e y x ng = Ok ng'
    ∧ shape_ok (height e) (width e) ng'
    ∧ ∀ y' x', 0 ≤ y' → 0 ≤ x' →
        lookup2 ng' y' x'
        = if decide ((y', x') = (y, x)) then Some (next_cell old n)
          else lookup2 ng y' x'.
Proof.
  intros Hg Hng Hy Hx Hsame.
  destruct (count_total e (grid e) y x Hg) as (n & Hn & _); [lia..|].
  destruct (lookup2_is_Some _ _ (grid e) y x Hg Hy Hx) as [old Hold].
  exists n, old. unfold step_cell, next_cell.
  rewrite Hn, nd_get_lookup2, Hold by lia. simpl.
  assert (Hkeep : ∃ ng', Ok ng = Ok ng' ∧ shape_ok (height e) (width e) ng'
            ∧ ∀ y' x', 0 ≤ y' → 0 ≤ x' →
                lookup2 ng' y' x'
                = if decide ((y', x') = (y, x)) then Some old else lookup2 ng y' x').
  { exists ng. split; [done|]. split; [done|]. intros y' x' _ _.
    case_decide; simplify_eq; [congruence|done]. }
  repeat case_bool_decide;
    first [ destruct Hkeep as (ng' & ? & ? & ?); by exists ng'
          | edestruct (nd_set_spec (height e) (width e) ng y x) as (ng' & ? & ? & ?);
            [done..|]; exists ng'; eauto ].
Qed.

Lemma step_spec (e : engine) :
  shape_ok (height e) (width e) (grid e) →
  ∃ g', step e = Ok (set_grid e g', g')
    ∧ shape_ok (height e) (width e) g'
    ∧ ∀ y x, 0 ≤ y < height e → 0 ≤ x < width e →
        ∃ old n, lookup2 (grid e) y x = Some old
                 ∧ _count_neighbors e (grid e) y x = Ok n
                 ∧ lookup2 g' y x = Some (next_cell old n).
Proof.
  intros Hg. unfold step.
  rewrite (for_each_positions _ _ (step_cell e)).
  edestruct (for_each_inv
    (λ (done : list (Z * Z)) (ng : list (list Z)),
       shape_ok (height e) (width e) ng
       ∧ ∀ y x, 0 ≤ y → 0 ≤ x →
           ((y, x) ∈ done →
              ∃ old n, lookup2 (grid e) y x = Some old
                       ∧ _count_neighbors e (grid e) y x = Ok n
                       ∧ lookup2 ng y x = Some (next_cell old n))
           ∧ ((y, x) ∉ done → lookup2 ng y x = lookup2 (grid e) y x))
    (λ p : Z * Z, step_cell e p.1 p.2)
    (positions (height e) (width e)) (grid e)) as (g' & Hrun & Hshape & Hcells).
  - split; [done|]. intros y x _ _. split; [|done].
    intros Hin. by apply elem_of_nil in Hin.
  - intros pre [y x] post ng Hsplit [Hng Hinv]. simpl.
    assert (Hp : (y, x) ∈ positions (height e) (width e)).
    { rewrite Hsplit. apply elem_of_app. right. by left. }
    apply elem_of_positions in Hp as [Hy Hx]. simpl in Hy, Hx.
    assert (Hfresh : (y, x) ∉ pre).
    { pose proof (NoDup_positions (height e) (width e)) as Hnd.
      rewrite Hsplit in Hnd. apply NoDup_app in Hnd as (_ & Hnd & _).
      intros Hin. apply (Hnd _ Hin). by left. }
    destruct (step_cell_spec e y x ng Hg Hng Hy Hx) as
      (n & old & ng' & Hn & Hold & Hstep & Hng' & Hnew).
    { apply Hinv; [lia..|done]. }
    exists ng'. split; [done|]. split; [done|].
    intros y' x' Hy' Hx'. rewrite Hnew by done. split.
    + intros Hin. case_decide as Heq; [simplify_eq; eauto|].
      apply Hinv; [done..|].
      apply elem_of_app in Hin as [Hin|Hin]; [done|].
      apply list_elem_of_singleton in Hin. done.
    + intros Hnotin. rewrite decide_False.
      * apply Hinv; [done..|]. intros Hin. apply Hnotin.
        apply elem_of_app. by left.
      * intros Heq. apply Hnotin. apply elem_of_app. right.
        rewrite Heq. by left.
  - exists g'. rewrite Hrun. simpl. split; [done|]. split; [done|].
    intros y x Hy Hx. apply Hcells; [lia..|].
    by apply elem_of_positions.
Qed.

Lemma next_cell_binary (old n : Z) :
  old = 0 ∨ old = 1 → next_cell old n = 0 ∨ next_cell old n = 1.
Proof. unfold next_cell. intros [-> | ->]; repeat case_bool_decide; auto. Qed.

Lemma binary_of_cells (h w : Z) (g : ndarray Z) :
  shape_ok h w g →
  (∀ y x v, 0 ≤ y < h → 0 ≤ x < w → lookup2 g y x = Some v → v = 0 ∨ v = 1) →
  binary g.
Proof.
  intros [Hlen Hrows] Hcells. apply Forall_lookup. intros i row Hrow.
  apply Forall_lookup. intros j v Hv.
  rewrite Forall_lookup in Hrows. pose proof (Hrows _ _ Hrow) as Hw. simpl in Hw.
  apply lookup_lt_Some in Hrow as Hi. apply lookup_lt_Some in Hv as Hj.
  apply (Hcells (Z.of_nat i) (Z.of_nat j)); [lia..|].
  unfold lookup2. rewrite !Nat2Z.id, Hrow. done.
Qed.

(** The invariant of the object is kept by [step], which never raises. *)
Lemma step_preserves_wf (e : engine) :
  wf_engine e → ∃ r, step e = Ok r ∧ wf_engine r.1 ∧ r.2 = grid r.1.
Proof.
  intros [Hshape Hbin].
  destruct (step_spec e Hshape) as (g' & Hstep & Hshape' & Hcells).
  exists (set_grid e g', g'). split; [done|]. split; [|done].
  split; [done|]. simpl. apply (binary_of_cells _ _ _ Hshape').
  intros y x v Hy Hx Hv.
  destruct (Hcells y x Hy Hx) as (old & n & Hold & _ & Hnew).
  rewrite Hnew in Hv. simplify_eq. apply next_cell_binary.
  by apply (lookup2_binary (grid e) y x).
Qed.

(** On a well-formed object any number of steps runs to completion. *)
Lemma step_n_total (n : nat) (e : engine) :
  wf_engine e → ∃ e', step_n n e = Ok e' ∧ wf_engine e'.
Proof.
  revert e. induction n as [|n IH]; intros e Hwf; simpl; [eauto|].
  destruct (step_preserves_wf e Hwf) as (r & -> & Hwf' & _). simpl.
  by apply IH.
Qed.

Lemma neighbor_cell_spec (e : engine) (g : ndarray Z) (y x dy dx : Z) :
  shape_ok (height e) (width e) g → height e ≠ 0 → width e ≠ 0 →
  ∃ ny nx, _get_wormhole_neighbor e y x dy dx = Ok (ny, nx)
    ∧ ((0 ≤ ny < height e) ∧ (0 ≤ nx < width e) →
       nd_get g ny nx = Ok (neighbor_cell e g y x dy dx))
    ∧ (¬ ((0 ≤ ny < height e) ∧ (0 ≤ nx < width e)) →
       neighbor_cell e g y x dy dx = 0).
Proof.
  intros Hshape Hh Hw. unfold neighbor_cell.
  destruct (resolve_total e y x dy dx Hh Hw) as [[ny nx] ->].
  exists ny, nx. split; [done|]. split.
  - intros Hin. rewrite bool_decide_true by done. destruct Hin as [Hy Hx].
    destruct (lookup2_is_Some _ _ g ny nx Hshape Hy Hx) as [v Hv].
    by rewrite nd_get_lookup2, Hv by lia.
  - intros Hout. by rewrite bool_decide_false.
Qed.

Lemma count_one_neighbor_cell (e : engine) (g : ndarray Z) (y x dy dx c : Z) :
  shape_ok (height e) (width e) g → height e ≠ 0 → width e ≠ 0 →
  ¬ (dy = 0 ∧ dx = 0) →
  count_one e g y x dy dx c = Ok (c + neighbor_cell e g y x dy dx).
Proof.
  intros Hshape Hh Hw Hdir.
  destruct (neighbor_cell_spec e g y x dy dx Hshape Hh Hw)
    as (ny & nx & Hres & Hin & Hout).
  unfold count_one. rewrite bool_decide_false, Hres by done. simpl.
  case_bool_decide as Hb.
  - by rewrite (Hin Hb).
  - rewrite (Hout Hb). f_equal. lia.
Qed.

(** The count is the sum of the eight neighbour cells. *)
Lemma count_neighbor_sum (e : engine) (g : ndarray Z) (y x : Z) :
  shape_ok (height e) (width e) g → height e ≠ 0 → width e ≠ 0 →
  _count_neighbors e g y x = Ok (neighbor_sum e g y x).
Proof.
  intros Hshape Hh Hw. unfold _count_neighbors, directions. cbn [for_each].
  repeat first [ rewrite count_one_neighbor_cell by (done || lia)
               | rewrite count_one_self
               | rewrite bind_Ok; cbv beta ].
  f_equal.
Qed.

(** C1: on an object whose grid is a [height] x [width] array of zeros and
    ones, [step] returns a grid of the same shape, which is also the new
    grid of the object; the new value of every cell follows from the value
    of that cell and its wormhole-aware neighbour count, both read in the
    grid as it was before the step.  The count is what [_count_neighbors]
    returns on the pre-step grid, and it is the sum, over the eight
    directions, of the pre-step cell at the neighbour that
    [_get_wormhole_neighbor] resolves (a neighbour outside the grid adds
    nothing).  A live cell with fewer than two or more than three
    neighbours becomes 0, a live cell with two or three stays 1, a dead
    cell with exactly three becomes 1, and any other dead cell stays 0. *)
Theorem step_applies_rule (e : engine) :
  wf_engine e →
  ∃ g', step e = Ok (set_grid e g', g')
    ∧ shape_ok (height e) (width e) g'
    ∧ ∀ y x, 0 ≤ y < height e → 0 ≤ x < width e →
        ∃ old n new,
          nd_get (grid e) y x = Ok old
          ∧ _count_neighbors e (grid e) y x = Ok n
          ∧ n = neighbor_sum e (grid e) y x
          ∧ (∀ dy dx, ∃ ny nx,
               _get_wormhole_neighbor e y x dy dx = Ok (ny, nx)
               ∧ ((0 ≤ ny < height e) ∧ (0 ≤ nx < width e) →
                  nd_get (grid e) ny nx
                  = Ok (neighbor_cell e (grid e) y x dy dx))
               ∧ (¬ ((0 ≤ ny < height e) ∧ (0 ≤ nx < width e)) →
                  neighbor_cell e (grid e) y x dy dx = 0))
          ∧ nd_get g' y x = Ok new
          ∧ (old = 0 ∨ old = 1)
          ∧ (old = 1 → n < 2 ∨ n > 3 → new = 0)
          ∧ (old = 1 → n = 2 ∨ n = 3 → new = 1)
          ∧ (old = 0 → n = 3 → new = 1)
          ∧ (old = 0 → n ≠ 3 → new = 0).
Proof.
  intros [Hshape Hbin].
  destruct (step_spec e Hshape) as (g' & Hstep & Hshape' & Hcells).
  exists g'. split; [done|]. split; [done|]. intros y x Hy Hx.
  destruct (Hcells y x Hy Hx) as (old & n & Hold & Hn & Hnew).
  exists old, n, (next_cell old n).
  rewrite !nd_get_lookup2, Hold, Hnew by lia.
  split; [done|]. split; [done|].
  split.
  { rewrite count_neighbor_sum in Hn by (done || lia). by injection Hn. }
  split.
  { intros dy dx. apply neighbor_cell_spec; (done || lia). }
  split; [done|].
  split; [by apply (lookup2_binary (grid e) y x)|].
  unfold next_cell. repeat split; intros; repeat case_bool_decide; lia.
Qed.

Lemma step_applies_rule_witness :
  ∃ g', step blinker_engine = Ok (set_grid blinker_engine g', g')
        ∧ shape_ok 3 3 g'.
Proof.
  assert (Hwf : wf_engine blinker_engine) by concrete_wf.
  destruct (step_applies_rule blinker_engine Hwf) as (g' & Hstep & Hshape & _).
  exists g'. split; [exact Hstep | exact Hshape].
Defined.

(** ** Without wormholes: the torus *)

Section NoWormholes.
Variable e : engine.
Hypothesis no_h : h_wormholes e = ∅.
Hypothesis no_v : v_wormholes e = ∅.

Lemma resolve_no_wormholes (y x dy dx : Z) :
  height e ≠ 0 → width e ≠ 0 →
  _get_wormhole_neighbor e y x dy dx
  = Ok ((y + dy) mod height e, (x + dx) mod width e).
Proof.
  intros Hh Hw.
  unfold _get_wormhole_neighbor, vertical_neighbor, diagonal_neighbor,
    regular_neighbor.
  rewrite no_h, no_v, !lookup_empty, !py_mod_ok by done.
  by repeat case_bool_decide.
Qed.

Lemma count_one_torus (g : ndarray Z) (y x dy dx c : Z) :
  shape_ok (height e) (width e) g → 0 < height e → 0 < width e →
  ¬ (dy = 0 ∧ dx = 0) →
  count_one e g y x dy dx c
  = Ok (c + torus_cell (height e) (width e) g (y + dy) (x + dx)).
Proof.
  intros Hshape Hh Hw Hdir. unfold count_one, torus_cell.
  rewrite bool_decide_false, resolve_no_wormholes by (done || lia). simpl.
  pose proof (Z.mod_pos_bound (y + dy) (height e) Hh) as Hy.
  pose proof (Z.mod_pos_bound (x + dx) (width e) Hw) as Hx.
  rewrite bool_decide_true by done.
  destruct (lookup2_is_Some _ _ g _ _ Hshape Hy Hx) as [v Hv].
  rewrite nd_get_lookup2, Hv by lia. done.
Qed.

Lemma count_torus (g : ndarray Z) (y x : Z) :
  shape_ok (height e) (width e) g → 0 < height e → 0 < width e →
  _count_neighbors e g y x = Ok (torus_count (height e) (width e) g y x).
Proof.
  intros Hshape Hh Hw. unfold _count_neighbors, directions. cbn [for_each].
  repeat first [ rewrite count_one_torus by (done || lia)
               | rewrite count_one_self
               | rewrite bind_Ok; cbv beta ].
  f_equal. unfold torus_count, torus_offsets. simpl. lia.
Qed.
End NoWormholes.

Lemma lookup_py_range (n i : Z) : 0 ≤ i < n → py_range n !! Z.to_nat i = Some i.
Proof.
  intros Hi. unfold py_range. rewrite list_lookup_fmap, lookup_seq_lt by lia.
  simpl. f_equal. lia.
Qed.

Lemma torus_step_shape (h w : Z) (g : ndarray Z) :
  shape_ok h w g → shape_ok h w (torus_step h w g).
Proof.
  intros [Hlen Hrows]. unfold torus_step. split.
  - rewrite length_fmap, length_py_range. lia.
  - apply Forall_fmap, Forall_forall. intros y Hy. simpl.
    rewrite length_fmap, length_py_range.
    apply elem_of_py_range in Hy.
    destruct g as [|row g]; [simpl in Hlen; lia|].
    apply Forall_cons in Hrows as [Hrow _]. lia.
Qed.

Lemma torus_step_lookup (h w : Z) (g : ndarray Z) (y x : Z) :
  0 ≤ y < h → 0 ≤ x < w →
  lookup2 (torus_step h w g) y x
  = Some (if life_rule (bool_decide (torus_cell h w g y x = 1))
               (torus_count h w g y x) then 1 else 0).
Proof.
  intros Hy Hx. unfold lookup2, torus_step.
  rewrite list_lookup_fmap, lookup_py_range by done. simpl.
  rewrite list_lookup_fmap, lookup_py_range by done. done.
Qed.

(** C2: with both tables empty every neighbour is the toroidal one,
    [((y + dy) mod height, (x + dx) mod width)], and [step] returns exactly
    the grid that one generation of Game of Life on the torus gives. *)
Theorem no_wormholes_is_torus (e : engine) :
  wf_engine e → h_wormholes e = ∅ → v_wormholes e = ∅ →
  (∀ y x dy dx, height e ≠ 0 → width e ≠ 0 →
     _get_wormhole_neighbor e y x dy dx
     = Ok ((y + dy) mod height e, (x + dx) mod width e))
  ∧ step e = Ok (set_grid e (torus_step (height e) (width e) (grid e)),
                 torus_step (height e) (width e) (grid e)).
Proof.
  intros [Hshape Hbin] Hh Hv. split.
  { intros. by apply resolve_no_wormholes. }
  destruct (step_spec e Hshape) as (g' & Hstep & Hshape' & Hcells).
  rewrite Hstep. f_equal.
  assert (g' = torus_step (height e) (width e) (grid e)) as ->; [|done].
  apply (ndarray_ext (height e) (width e)); [done | by apply torus_step_shape |].
  intros y x Hy Hx.
  destruct (Hcells y x Hy Hx) as (old & n & Hold & Hn & ->).
  rewrite torus_step_lookup by done.
  rewrite count_torus in Hn by (done || lia). injection Hn as <-.
  unfold torus_cell. rewrite !Z.mod_small, Hold by lia. simpl.
  destruct (lookup2_binary _ _ _ _ Hbin Hold) as [-> | ->];
    unfold next_cell, life_rule; repeat case_bool_decide; (done || lia).
Qed.

Lemma no_wormholes_is_torus_witness :
  step blinker5_engine
  = Ok (set_grid blinker5_engine (torus_step 5 5 blinker5), torus_step 5 5 blinker5).
Proof.
  assert (Hwf : wf_engine blinker5_engine) by concrete_wf.
  exact (proj2 (no_wormholes_is_torus blinker5_engine Hwf eq_refl eq_refl)).
Defined.

(** ** The wormhole table builder *)

Lemma dd_append_keys (d : color_groups) (c : color) (p : pos) :
  (dd_append d c p).*1 = if decide (c ∈ d.*1) then d.*1 else d.*1 ++ [c].
Proof.
  induction d as [|[c0 l0] d IH]; [done|].
  cbn [dd_append]. case_bool_decide as Hc; rewrite !fmap_cons; cbn [fst].
  - subst. rewrite decide_True; [done|]. by left.
  - rewrite IH. destruct (decide (c ∈ d.*1)) as [Hin|Hout].
    + rewrite decide_True; [done|]. by right.
    + rewrite decide_False; [done|].
      intros [?|?]%elem_of_cons; [congruence|done].
Qed.

Lemma dd_append_NoDup (d : color_groups) (c : color) (p : pos) :
  NoDup d.*1 → NoDup (dd_append d c p).*1.
Proof.
  intros Hnd. rewrite dd_append_keys. case_decide as Hin; [done|].
  apply NoDup_app. split; [done|]. split; [|apply NoDup_singleton].
  intros k Hk Hk'%list_elem_of_singleton. by subst k.
Qed.

Lemma dd_append_elem (d : color_groups) (c : color) (p : pos) c' l' :
  NoDup d.*1 → (c', l') ∈ dd_append d c p →
  (c' ≠ c ∧ (c', l') ∈ d)
  ∨ (c' = c ∧ ((∃ l, (c, l) ∈ d ∧ l' = l ++ [p]) ∨ ((c ∉ d.*1) ∧ l' = [p]))).
Proof.
  induction d as [|[c0 l0] d IH]; simpl; intros Hnd Hin.
  - apply list_elem_of_singleton in Hin. simplify_eq. right. split; [done|].
    right. split; [|done]. by intros ?%elem_of_nil.
  - apply NoDup_cons in Hnd as [Hc0 Hnd]. case_bool_decide as Hc.
    + subst c0. apply elem_of_cons in Hin as [Heq|Hin].
      * simplify_eq. right. split; [done|]. left. exists l0. split; [by left|done].
      * left. split; [|by right]. intros ->. apply Hc0.
        apply list_elem_of_fmap. by exists (c, l').
    + apply elem_of_cons in Hin as [Heq|Hin].
      * simplify_eq. left. split; [done|by left].
      * destruct (IH Hnd Hin) as [[Hne Hd]|[-> [(l & Hl & ->)|[Hout ->]]]].
        -- left. split; [done|by right].
        -- right. split; [done|]. left. exists l. split; [by right|done].
        -- right. split; [done|]. right. split; [|done].
           intros [?|?]%elem_of_cons; [congruence|done].
Qed.

Section Scan.
Variable tunnel_map : ndarray color.

Lemma scan_pure_snoc (ps : list pos) (p : pos) :
  scan_pure tunnel_map (ps ++ [p])
  = if bool_decide (pixel_at tunnel_map p ≠ black)
    then dd_append (scan_pure tunnel_map ps) (pixel_at tunnel_map p) p
    else scan_pure tunnel_map ps.
Proof. unfold scan_pure. by rewrite foldl_snoc. Qed.

(** What the colour groups hold once the positions [ps] are scanned:
    one group per colour met, holding the positions of that colour. *)
Lemma scan_pure_spec (ps : list pos) :
  NoDup (scan_pure tunnel_map ps).*1
  ∧ (∀ c l, (c, l) ∈ scan_pure tunnel_map ps →
       c ≠ black ∧ l = filter (λ p, pixel_at tunnel_map p = c) ps)
  ∧ (∀ q, q ∈ ps → pixel_at tunnel_map q ≠ black →
       pixel_at tunnel_map q ∈ (scan_pure tunnel_map ps).*1).
Proof.
  induction ps as [|p ps (Hnd & Hsound & Hcompl)] using rev_ind.
  { split; [constructor|]. split; [by intros c l ?%elem_of_nil|].
    by intros q ?%elem_of_nil. }
  rewrite scan_pure_snoc. case_bool_decide as Hblack.
  - split; [by apply dd_append_NoDup|]. split.
    + intros c l Hin. rewrite filter_app, filter_cons, filter_nil.
      destruct (dd_append_elem _ _ _ _ _ Hnd Hin)
        as [[Hne Hd]|[-> [(l0 & Hl0 & ->)|[Hout ->]]]].
      * destruct (Hsound _ _ Hd) as [Hc ->]. split; [done|].
        rewrite decide_False by done. by rewrite app_nil_r.
      * destruct (Hsound _ _ Hl0) as [Hc ->]. split; [done|].
        by rewrite decide_True.
      * split; [done|]. rewrite decide_True by done.
        replace (filter _ ps) with (@nil (Z * Z)); [done|].
        symmetry. apply elem_of_nil_inv. intros q [Hq Hin']%list_elem_of_filter.
        apply Hout. rewrite <- Hq. apply Hcompl; [done|]. by rewrite Hq.
    + intros q Hq Hqb. rewrite dd_append_keys.
      apply elem_of_app in Hq as [Hq|Hq%list_elem_of_singleton]; [|subst q].
      * case_decide; [by apply Hcompl|].
        apply elem_of_app. left. by apply Hcompl.
      * case_decide; [done|]. apply elem_of_app. right. by left.
  - split; [done|]. split.
    + intros c l Hin. destruct (Hsound _ _ Hin) as [Hc ->]. split; [done|].
      rewrite filter_app, filter_cons, filter_nil, decide_False, app_nil_r; [done|].
      congruence.
    + intros q [Hq|Hq%list_elem_of_singleton]%elem_of_app Hqb;
        [by apply Hcompl | by subst q].
Qed.

(** A scan that returns has read every pixel. *)
Lemma scan_from_Ok (ps : list pos) (d0 d : list (Z * Z * Z * list (Z * Z))) :
  for_each ps (λ p d,
    pixel ← nd_get tunnel_map p.1 p.2;
    if bool_decide (pixel ≠ black) then mret (dd_append d pixel (p.1, p.2))
    else mret d) d0 = Ok d →
  d = foldl (λ d p, if bool_decide (pixel_at tunnel_map p ≠ black)
                    then dd_append d (pixel_at tunnel_map p) p else d) d0 ps.
Proof.
  revert d0. induction ps as [|[y x] ps IH]; intros d0 Hrun; simpl in *.
  { by injection Hrun. }
  destruct (nd_get tunnel_map y x) as [c|err] eqn:Hget; simpl in Hrun; [|done].
  assert (Hpix : pixel_at tunnel_map (y, x) = c).
  { unfold pixel_at. simpl. by rewrite Hget. }
  rewrite Hpix. apply IH. by destruct (bool_decide (c ≠ black)).
Qed.

Lemma scan_tunnel_map_Ok (h w : Z) (d : list (Z * Z * Z * list (Z * Z))) :
  scan_tunnel_map h w tunnel_map = Ok d →
  d = scan_pure tunnel_map (positions h w).
Proof.
  unfold scan_tunnel_map. intros Hrun.
  rewrite (for_each_positions h w (λ y x d,
    pixel ← nd_get tunnel_map y x;
    if bool_decide (pixel ≠ black) then mret (dd_append d pixel (y, x))
    else mret d)) in Hrun.
  by apply scan_from_Ok.
Qed.

Lemma scan_tunnel_map_total (h w : Z) :
  shape_ok h w tunnel_map →
  scan_tunnel_map h w tunnel_map = Ok (scan_pure tunnel_map (positions h w)).
Proof.
  intros Hshape. unfold scan_tunnel_map.
  rewrite (for_each_positions h w (λ y x d,
    pixel ← nd_get tunnel_map y x;
    if bool_decide (pixel ≠ black) then mret (dd_append d pixel (y, x))
    else mret d)).
  apply for_each_pure. intros [y x] d [Hy Hx]%elem_of_positions.
  simpl in *.
  destruct (lookup2_is_Some _ _ tunnel_map y x Hshape Hy Hx) as [c Hc].
  assert (Hget : nd_get tunnel_map y x = Ok c).
  { by rewrite nd_get_lookup2, Hc by lia. }
  assert (Hpix : pixel_at tunnel_map (y, x) = c).
  { unfold pixel_at. simpl. by rewrite Hget. }
  rewrite Hget, Hpix. simpl. by destruct (bool_decide (c ≠ black)).
Qed.
End Scan.

(** The second loop: the table holds exactly the groups of two, in both
    directions.  [f] is the colour of a position; groups of different
    colours share no position. *)
Lemma foldl_connect_spec (f : pos → color) (d : color_groups) :
  NoDup d.*1 →
  (∀ c l, (c, l) ∈ d → NoDup l ∧ ∀ p, p ∈ l → f p = c) →
  ∀ p q, foldl connect ∅ d !! p = Some q
         ↔ ∃ c, (c, [p; q]) ∈ d ∨ (c, [q; p]) ∈ d.
Proof.
  induction d as [|[c0 l0] d IH] using rev_ind; intros Hkeys Hgroups p q.
  { simpl. rewrite lookup_empty. split; [done|].
    intros (c & [?%elem_of_nil|?%elem_of_nil]); done. }
  rewrite fmap_app in Hkeys. apply NoDup_app in Hkeys as (Hkeys & Hfresh & _).
  assert (Hd : ∀ c l, (c, l) ∈ d → NoDup l ∧ ∀ p, p ∈ l → f p = c).
  { intros c l Hin. apply Hgroups, elem_of_app. by left. }
  assert (Hlast : NoDup l0 ∧ ∀ p, p ∈ l0 → f p = c0).
  { apply Hgroups, elem_of_app. right. by left. }
  assert (Hother : ∀ c l r, (c, l) ∈ d → r ∈ l → r ∉ l0).
  { intros c l r Hin Hr Hr0. apply (Hfresh c).
    - apply list_elem_of_fmap. by exists (c, l).
    - destruct (Hd _ _ Hin) as [_ Hc]. destruct Hlast as [_ Hc0].
      rewrite <- (Hc r Hr), (Hc0 r Hr0). by left. }
  specialize (IH Hkeys Hd). rewrite foldl_snoc.
  assert (Hskip : (∀ p1 p2, l0 ≠ [p1; p2]) →
            foldl connect ∅ d !! p = Some q
            ↔ ∃ c, (c, [p; q]) ∈ d ++ [(c0, l0)] ∨ (c, [q; p]) ∈ d ++ [(c0, l0)]).
  { intros Hshape. rewrite IH. split.
    - intros (c & [?|?]); exists c; [left|right]; apply elem_of_app; by left.
    - intros (c & [Hin|Hin]); apply elem_of_app in Hin as [Hin|Hin];
        try (apply list_elem_of_singleton in Hin; simplify_eq;
             by destruct (Hshape _ _ eq_refl));
        exists c; [by left|by right]. }
  unfold connect. simpl.
  destruct l0 as [|p1 [|p2 [|p3 l0]]]; try (apply Hskip; done).
  destruct Hlast as [Hnd _].
  assert (Hne : p1 ≠ p2).
  { apply NoDup_cons in Hnd as [Hnd _]. intros ->. apply Hnd. by left. }
  rewrite !lookup_insert_Some, IH. split.
  - intros [[-> ->]|[Hp2 [[-> ->]|[Hp1 (c & Hc)]]]].
    + exists c0. right. apply elem_of_app. right. by left.
    + exists c0. left. apply elem_of_app. right. by left.
    + exists c. destruct Hc; [left|right]; apply elem_of_app; by left.
  - intros (c & [Hin|Hin]); apply elem_of_app in Hin as [Hin|Hin].
    + right. assert (Hp : p ∉ [p1; p2]) by (apply (Hother c [p; q]); [done|by left]).
      split; [intros ->; apply Hp; by right; left|]. right.
      split; [intros ->; apply Hp; by left|]. exists c. by left.
    + apply list_elem_of_singleton in Hin. simplify_eq. right. split; [done|].
      by left.
    + right.
      assert (Hp : p ∉ [p1; p2])
        by (apply (Hother c [q; p]); [done|by right; left]).
      split; [intros ->; apply Hp; by right; left|]. right.
      split; [intros ->; apply Hp; by left|]. exists c. by right.
    + apply list_elem_of_singleton in Hin. simplify_eq. by left.
Qed.

(** The table built from a tunnel map: [p] is connected to [q] exactly
    when some colour other than black sits on [p] and [q] and on no other
    scanned position. *)
Lemma build_spec (h w : Z) (tunnel_map : ndarray color) (t : gmap (Z * Z) (Z * Z)) :
  _build_wormhole_connections h w tunnel_map = Ok t →
  ∀ p q, t !! p = Some q
         ↔ ∃ c, c ≠ black
                ∧ (color_positions h w tunnel_map c = [p; q]
                   ∨ color_positions h w tunnel_map c = [q; p]).
Proof.
  unfold _build_wormhole_connections. intros Hbuild p q.
  apply bind_Ok_inv in Hbuild as (d & Hscan & Ht). injection Ht as <-.
  apply scan_tunnel_map_Ok in Hscan as ->.
  destruct (scan_pure_spec tunnel_map (positions h w)) as (Hkeys & Hsound & Hcompl).
  rewrite (foldl_connect_spec (pixel_at tunnel_map)); [|done|].
  - unfold color_positions. split.
    + intros (c & [Hin|Hin]); destruct (Hsound _ _ Hin) as [Hc Heq];
        exists c; auto.
    + assert (Hfound : ∀ c r l, c ≠ black →
                filter (λ p, pixel_at tunnel_map p = c) (positions h w) = l →
                r ∈ l → (c, l) ∈ scan_pure tunnel_map (positions h w)).
      { intros c r l Hc Hl Hr. rewrite <- Hl in Hr.
        apply list_elem_of_filter in Hr as [Hpix Hr].
        assert (Hkey : c ∈ (scan_pure tunnel_map (positions h w)).*1).
        { rewrite <- Hpix. apply Hcompl; [done|]. by rewrite Hpix. }
        apply list_elem_of_fmap in Hkey as ([c' l'] & Hc' & Hin).
        simpl in Hc'. subst c'.
        destruct (Hsound _ _ Hin) as [_ Hl']. congruence. }
      intros (c & Hc & [Heq|Heq]); exists c; [left|right].
      * apply (Hfound c p); [done|done|by left].
      * apply (Hfound c p); [done|done|by right; left].
  - intros c l Hin. destruct (Hsound _ _ Hin) as [_ ->]. split.
    + apply NoDup_filter, NoDup_positions.
    + by intros r [? _]%list_elem_of_filter.
Qed.

Lemma build_total (h w : Z) (tunnel_map : ndarray color) :
  shape_ok h w tunnel_map → ∃ t, _build_wormhole_connections h w tunnel_map = Ok t.
Proof.
  intros Hshape. unfold _build_wormhole_connections.
  rewrite scan_tunnel_map_total by done. simpl. eauto.
Qed.

(** The pixel read at a scanned position. *)
Lemma pixel_at_get (tunnel_map : ndarray color) (y x : Z) (c : Z * Z * Z) :
  nd_get tunnel_map y x = Ok c → pixel_at tunnel_map (y, x) = c.
Proof. intros Hget. unfold pixel_at. simpl. by rewrite Hget. Qed.

(** C5: whatever the tunnel map, the table the builder returns is
    symmetric: an entry from [k] to [v] comes with the entry from [v] to
    [k]. *)
Theorem build_symmetric (h w : Z) (tunnel_map : ndarray color)
    (t : gmap (Z * Z) (Z * Z)) :
  _build_wormhole_connections h w tunnel_map = Ok t → symmetric_table t.
Proof.
  intros Hbuild k v Hkv.
  apply (build_spec _ _ _ _ Hbuild) in Hkv as (c & Hc & Hpos).
  apply (build_spec _ _ _ _ Hbuild). exists c. tauto.
Qed.

Lemma build_symmetric_witness :
  _build_wormhole_connections 3 3 wormhole_tunnel = Ok wormhole_table
  ∧ symmetric_table wormhole_table.
Proof.
  assert (Hbuild : _build_wormhole_connections 3 3 wormhole_tunnel
                   = Ok wormhole_table) by (vm_compute; reflexivity).
  split; [exact Hbuild|].
  exact (build_symmetric 3 3 wormhole_tunnel wormhole_table Hbuild).
Defined.

(** C6: for a tunnel map of the scanned shape the builder returns a table
    and raises nothing; a position whose colour, other than black, sits on
    exactly one or on three or more positions is not a key of it; and
    every key carries a colour, other than black, that sits on exactly two
    positions. *)
Theorem malformed_groups_ignored (h w : Z) (tunnel_map : ndarray color) :
  shape_ok h w tunnel_map →
  ∃ t, _build_wormhole_connections h w tunnel_map = Ok t
    ∧ (∀ y x c, 0 ≤ y < h → 0 ≤ x < w →
         nd_get tunnel_map y x = Ok c → c ≠ black →
         (length (color_positions h w tunnel_map c) = 1
          ∨ 3 ≤ length (color_positions h w tunnel_map c))%nat →
         t !! (y, x) = None)
    ∧ (∀ y x, is_Some (t !! (y, x)) →
         ∃ c, nd_get tunnel_map y x = Ok c ∧ c ≠ black
              ∧ length (color_positions h w tunnel_map c) = 2%nat).
Proof.
  intros Hshape. destruct (build_total h w tunnel_map Hshape) as [t Hbuild].
  exists t. split; [done|].
  assert (Hkey : ∀ y x q, t !! (y, x) = Some q →
            (0 ≤ y < h ∧ 0 ≤ x < w)
            ∧ pixel_at tunnel_map (y, x) ≠ black
            ∧ length (color_positions h w tunnel_map
                        (pixel_at tunnel_map (y, x))) = 2%nat).
  { intros y x q Hq.
    apply (build_spec _ _ _ _ Hbuild) in Hq as (c & Hc & Hpos).
    assert (Hin : (y, x) ∈ color_positions h w tunnel_map c).
    { destruct Hpos as [-> | ->]; [by left|by right; left]. }
    apply list_elem_of_filter in Hin as [-> Hin].
    apply elem_of_positions in Hin.
    split; [done|]. split; [done|]. by destruct Hpos as [-> | ->]. }
  split.
  - intros y x c Hy Hx Hget Hc Hlen.
    destruct (t !! (y, x)) as [q|] eqn:Hq; [|done].
    destruct (Hkey _ _ _ Hq) as (_ & _ & Htwo).
    rewrite (pixel_at_get _ _ _ _ Hget) in Htwo. lia.
  - intros y x [q Hq]. destruct (Hkey _ _ _ Hq) as ([Hy Hx] & Hc & Htwo).
    destruct (lookup2_is_Some _ _ tunnel_map y x Hshape Hy Hx) as [c Hlook].
    assert (Hget : nd_get tunnel_map y x = Ok c).
    { by rewrite nd_get_lookup2, Hlook by lia. }
    rewrite (pixel_at_get _ _ _ _ Hget) in Hc, Htwo. eauto.
Qed.

(** One red pixel, three blue ones and a green pair: only the pair is
    connected. *)
Lemma malformed_groups_ignored_witness :
  ∃ t, _build_wormhole_connections 2 3
         [[(255,0,0); (0,0,255); (0,255,0)]; [(0,0,255); (0,255,0); (0,0,255)]]
       = Ok t
       ∧ t !! (0, 0) = None.
Proof.
  destruct (malformed_groups_ignored 2 3
    [[(255,0,0); (0,0,255); (0,255,0)]; [(0,0,255); (0,255,0); (0,0,255)]])
    as (t & Hbuild & Hnone & _).
  { split; [reflexivity | repeat constructor]. }
  exists t. split; [exact Hbuild|].
  apply (Hnone 0 0 (255,0,0)); [lia | lia | reflexivity | discriminate |].
  left. vm_compute. reflexivity.
Defined.

(** ** Neighbours stay inside the grid *)

(** The entries of a built table lie inside the scanned rectangle. *)
Lemma build_in_range (h w : Z) (tunnel_map : ndarray color)
    (t : gmap (Z * Z) (Z * Z)) (p q : Z * Z) :
  _build_wormhole_connections h w tunnel_map = Ok t → t !! p = Some q →
  (0 ≤ q.1 < h) ∧ (0 ≤ q.2 < w).
Proof.
  intros Hbuild Hq.
  apply (build_spec _ _ _ _ Hbuild) in Hq as (c & Hc & Hpos).
  assert (Hin : q ∈ color_positions h w tunnel_map c).
  { destruct Hpos as [-> | ->]; [by right; left|by left]. }
  apply list_elem_of_filter in Hin as [_ Hin]. by apply elem_of_positions.
Qed.

Lemma resolve_in_bounds (e : engine) (y x dy dx : Z) :
  0 < height e → 0 < width e →
  (∀ p q, h_wormholes e !! p = Some q → (0 ≤ q.1 < height e) ∧ (0 ≤ q.2 < width e)) →
  (∀ p q, v_wormholes e !! p = Some q → (0 ≤ q.1 < height e) ∧ (0 ≤ q.2 < width e)) →
  ∃ ny nx, _get_wormhole_neighbor e y x dy dx = Ok (ny, nx)
           ∧ (0 ≤ ny < height e) ∧ (0 ≤ nx < width e).
Proof.
  intros Hh Hw Hht Hvt.
  pose proof (λ a, Z.mod_pos_bound a (height e) Hh) as Hmh.
  pose proof (λ a, Z.mod_pos_bound a (width e) Hw) as Hmw.
  unfold _get_wormhole_neighbor, vertical_neighbor, diagonal_neighbor,
    regular_neighbor.
  repeat case_match; simplify_eq; rewrite ?py_mod_ok by lia; simpl;
    (eexists _, _; split; [reflexivity|]);
    repeat match goal with
    | H : (if ?b then _ else None) = Some _ |- _ =>
        destruct b; [|discriminate H]
    | H : h_wormholes e !! _ = Some _ |- _ => apply Hht in H; simpl in H
    | H : v_wormholes e !! _ = Some _ |- _ => apply Hvt in H; simpl in H
    end;
    split; first [ apply Hmh | apply Hmw | tauto ].
Qed.

(** C7: on an object with a non-empty grid of zeros and ones whose tables
    were built for its dimensions, every direction from every position
    resolves to a coordinate inside the grid; so the bounds check of the
    count passes for each of the eight neighbours, whose cell is read and
    added, and the neighbour count lies between 0 and 8. *)
Theorem neighbors_in_bounds (e : engine) (h_tunnel_map v_tunnel_map : ndarray color) :
  wf_engine e → 0 < height e → 0 < width e →
  _build_wormhole_connections (height e) (width e) h_tunnel_map
    = Ok (h_wormholes e) →
  _build_wormhole_connections (height e) (width e) v_tunnel_map
    = Ok (v_wormholes e) →
  ∀ y x,
    (∀ dy dx, ∃ ny nx, _get_wormhole_neighbor e y x dy dx = Ok (ny, nx)
                       ∧ (0 ≤ ny < height e) ∧ (0 ≤ nx < width e))
    ∧ (∀ dy dx count, ¬ (dy = 0 ∧ dx = 0) →
         ∃ ny nx v, _get_wormhole_neighbor e y x dy dx = Ok (ny, nx)
                    ∧ nd_get (grid e) ny nx = Ok v
                    ∧ count_one e (grid e) y x dy dx count = Ok (count + v))
    ∧ ∃ n, _count_neighbors e (grid e) y x = Ok n ∧ 0 ≤ n ≤ 8.
Proof.
  intros [Hshape Hbin] Hh Hw Hht Hvt y x.
  assert (Hres : ∀ dy dx, ∃ ny nx,
            _get_wormhole_neighbor e y x dy dx = Ok (ny, nx)
            ∧ (0 ≤ ny < height e) ∧ (0 ≤ nx < width e)).
  { intros dy dx. apply resolve_in_bounds; [done..| |].
    - intros p q. by apply build_in_range with h_tunnel_map.
    - intros p q. by apply build_in_range with v_tunnel_map. }
  split; [done|]. split.
  - intros dy dx count Hdir.
    destruct (Hres dy dx) as (ny & nx & Hn & Hy & Hx).
    destruct (lookup2_is_Some _ _ (grid e) ny nx Hshape Hy Hx) as [v Hv].
    assert (Hget : nd_get (grid e) ny nx = Ok v).
    { by rewrite nd_get_lookup2, Hv by lia. }
    exists ny, nx, v. split; [done|]. split; [done|].
    unfold count_one. rewrite bool_decide_false, Hn by done. simpl.
    rewrite bool_decide_true, Hget by done. done.
  - destruct (count_total e (grid e) y x Hshape) as (n & Hn & Hbound); [lia..|].
    eauto.
Qed.

Lemma neighbors_in_bounds_witness :
  ∃ n, _count_neighbors wormhole_engine (grid wormhole_engine) 0 2 = Ok n
       ∧ 0 ≤ n ≤ 8.
Proof.
  assert (Hwf : wf_engine wormhole_engine) by concrete_wf.
  apply (neighbors_in_bounds wormhole_engine wormhole_tunnel wormhole_tunnel Hwf);
    [reflexivity | reflexivity | vm_compute; reflexivity | vm_compute; reflexivity].
Defined.

(** ** Further properties of the engine *)

(** [step] never raises on a well-formed object and keeps it well formed;
    the grid it returns is the new grid of the object. *)
Theorem step_keeps_invariant (e : engine) :
  wf_engine e → ∃ r, step e = Ok r ∧ wf_engine r.1 ∧ r.2 = grid r.1.
Proof. apply step_preserves_wf. Qed.

Lemma step_keeps_invariant_witness :
  ∃ r, step wormhole_engine = Ok r ∧ wf_engine r.1 ∧ r.2 = grid r.1.
Proof.
  assert (Hwf : wf_engine wormhole_engine) by concrete_wf.
  exact (step_keeps_invariant wormhole_engine Hwf).
Defined.

(** [run_simulation] returns for every step count on a well-formed
    object: no step raises, the object stays well formed, and the grid
    returned is the grid of the object. *)
Theorem run_simulation_total (e : engine) (steps : Z) :
  wf_engine e →
  ∃ e', run_simulation e steps = Ok (e', grid e') ∧ wf_engine e'.
Proof.
  intros Hwf. rewrite run_simulation_step_n.
  destruct (step_n_total (Z.to_nat steps) e Hwf) as (e' & -> & Hwf').
  exists e'. done.
Qed.

Lemma run_simulation_total_witness :
  ∃ e', run_simulation wormhole_engine 1000 = Ok (e', grid e') ∧ wf_engine e'.
Proof.
  assert (Hwf : wf_engine wormhole_engine) by concrete_wf.
  exact (run_simulation_total wormhole_engine 1000 Hwf).
Defined.

(** The table the builder returns connects [p] to [q] exactly when some
    colour other than black marks [p] and [q] and no other scanned
    position; a connected pair consists of two different cells of the
    scanned rectangle. *)
Theorem table_characterisation (h w : Z) (tunnel_map : ndarray color)
    (t : gmap (Z * Z) (Z * Z)) :
  _build_wormhole_connections h w tunnel_map = Ok t →
  ∀ p q,
    (t !! p = Some q
     ↔ ∃ c, c ≠ black
            ∧ (color_positions h w tunnel_map c = [p; q]
               ∨ color_positions h w tunnel_map c = [q; p]))
    ∧ (t !! p = Some q →
       p ≠ q ∧ ((0 ≤ p.1 < h) ∧ (0 ≤ p.2 < w)) ∧ ((0 ≤ q.1 < h) ∧ (0 ≤ q.2 < w))).
Proof.
  intros Hbuild p q. split; [by apply build_spec|]. intros Hpq.
  assert (Hqp : t !! q = Some p).
  { apply (build_spec _ _ _ _ Hbuild).
    apply (build_spec _ _ _ _ Hbuild) in Hpq as (c & Hc & Hpos). exists c. tauto. }
  split; [|split; [by apply (build_in_range h w tunnel_map t q p)
                  |by apply (build_in_range h w tunnel_map t p q)]].
  apply (build_spec _ _ _ _ Hbuild) in Hpq as (c & Hc & Hpos).
  assert (Hnd : NoDup (color_positions h w tunnel_map c)).
  { apply NoDup_filter, NoDup_positions. }
  intros ->. destruct Hpos as [Hpos|Hpos]; rewrite Hpos in Hnd;
    apply NoDup_cons in Hnd as [Hnd _]; apply Hnd; by left.
Qed.

Lemma table_characterisation_witness :
  wormhole_table !! (0, 0) = Some (0, 2)
  ↔ ∃ c, c ≠ black
         ∧ (color_positions 3 3 wormhole_tunnel c = [(0, 0); (0, 2)]
            ∨ color_positions 3 3 wormhole_tunnel c = [(0, 2); (0, 0)]).
Proof.
  assert (Hbuild : _build_wormhole_connections 3 3 wormhole_tunnel
                   = Ok wormhole_table) by (vm_compute; reflexivity).
  exact (proj1 (table_characterisation 3 3 wormhole_tunnel wormhole_table
                  Hbuild (0, 0) (0, 2))).
Defined.

(** ** Errors and frame of the neighbour resolution *)

Lemma py_mod_raises (a m : Z) (err : exn) :
  py_mod a m = Raise err → err = ZeroDivisionError ∧ m = 0.
Proof. unfold py_mod. case_bool_decide; intros; by simplify_eq. Qed.

(** The only exception [_get_wormhole_neighbor] can raise is the
    [ZeroDivisionError] of [%], and it needs a dimension that is zero. *)
Theorem resolve_raises_only_zero_division (e : engine) (y x dy dx : Z) (err : exn) :
  _get_wormhole_neighbor e y x dy dx = Raise err →
  err = ZeroDivisionError ∧ (height e = 0 ∨ width e = 0).
Proof.
  intros Hraise. split.
  - revert Hraise.
    unfold _get_wormhole_neighbor, vertical_neighbor, diagonal_neighbor,
      regular_neighbor, py_mod.
    repeat case_match; simpl; intros; by simplify_eq.
  - destruct (decide (height e = 0)) as [|Hh]; [by left|].
    destruct (decide (width e = 0)) as [|Hw]; [by right|].
    destruct (resolve_total e y x dy dx Hh Hw) as [p Hp]. congruence.
Qed.

Lemma resolve_raises_only_zero_division_witness :
  ZeroDivisionError = ZeroDivisionError
  ∧ (height (Engine [] 0 0 ∅ ∅) = 0 ∨ width (Engine [] 0 0 ∅ ∅) = 0).
Proof.
  apply (resolve_raises_only_zero_division (Engine [] 0 0 ∅ ∅) 0 0 1 0).
  reflexivity.
Defined.

(** A move along a row never consults the vertical table, and a move
    along a column never consults the horizontal one. *)
Theorem straight_moves_use_one_table (e : engine)
    (h' v' : gmap (Z * Z) (Z * Z)) (y x d : Z) :
  _get_wormhole_neighbor (with_tables e (h_wormholes e) v') y x 0 d
  = _get_wormhole_neighbor e y x 0 d
  ∧ _get_wormhole_neighbor (with_tables e h' (v_wormholes e)) y x d 0
    = _get_wormhole_neighbor e y x d 0.
Proof.
  unfold _get_wormhole_neighbor, vertical_neighbor, diagonal_neighbor,
    regular_neighbor, with_tables.
  cbn [grid height width h_wormholes v_wormholes].
  split; repeat case_bool_decide; (done || lia).
Qed.

(** ** Frame and edge cases of stepping *)

Lemma set_grid_same (e : engine) : set_grid e (grid e) = e.
Proof. by destruct e. Qed.

Lemma step_frame (e : engine) (r : engine * list (list Z)) :
  step e = Ok r → r.1 = set_grid e r.2.
Proof.
  unfold step. intros Hstep.
  apply bind_Ok_inv in Hstep as (g & _ & Hret). by injection Hret as <-.
Qed.

Lemma step_n_frame (n : nat) (e e' : engine) :
  step_n n e = Ok e' → e' = set_grid e (grid e').
Proof.
  revert e. induction n as [|n IH]; intros e Hrun; simpl in Hrun.
  - injection Hrun as <-. by rewrite set_grid_same.
  - apply bind_Ok_inv in Hrun as (r & Hstep & Hrest).
    apply step_frame in Hstep. apply IH in Hrest.
    rewrite Hrest, Hstep. done.
Qed.

(** Running changes nothing but the grid: the dimensions and both tables
    of the object are those it started with, and the value returned is its
    grid. *)
Theorem run_simulation_frame (e e' : engine) (steps : Z) (g : ndarray Z) :
  run_simulation e steps = Ok (e', g) →
  g = grid e' ∧ height e' = height e ∧ width e' = width e
  ∧ h_wormholes e' = h_wormholes e ∧ v_wormholes e' = v_wormholes e.
Proof.
  rewrite run_simulation_step_n. intros Hrun.
  apply bind_Ok_inv in Hrun as (e1 & Hsteps & Hret).
  injection Hret as <- <-. apply step_n_frame in Hsteps.
  split; [done|]. by rewrite Hsteps.
Qed.

Lemma run_simulation_frame_witness :
  [[0;0;0];[0;0;0];[0;0;0]] = grid (set_grid wormhole_engine [[0;0;0];[0;0;0];[0;0;0]])
  ∧ height (set_grid wormhole_engine [[0;0;0];[0;0;0];[0;0;0]]) = height wormhole_engine
  ∧ width (set_grid wormhole_engine [[0;0;0];[0;0;0];[0;0;0]]) = width wormhole_engine
  ∧ h_wormholes (set_grid wormhole_engine [[0;0;0];[0;0;0];[0;0;0]])
    = h_wormholes wormhole_engine
  ∧ v_wormholes (set_grid wormhole_engine [[0;0;0];[0;0;0];[0;0;0]])
    = v_wormholes wormhole_engine.
Proof.
  apply (run_simulation_frame wormhole_engine _ 2).
  vm_compute. reflexivity.
Defined.

Lemma for_each_skip {A S} (xs : list A) (s : S) :
  for_each xs (λ _ s0, Ok s0) s = Ok s.
Proof. induction xs as [|x xs IH]; [done|]. simpl. apply IH. Qed.

Lemma py_range_empty (n : Z) : n ≤ 0 → py_range n = [].
Proof. intros Hn. unfold py_range. by replace (Z.to_nat n) with 0%nat by lia. Qed.

Lemma step_n_fixed (n : nat) (e : engine) :
  step e = Ok (e, grid e) → step_n n e = Ok e.
Proof.
  intros Hstep. induction n as [|n IH]; simpl; [done|]. by rewrite Hstep.
Qed.

(** On a grid with a dimension that is zero the loops of [step] have no
    iteration: [step] and [run_simulation] return the grid as it is and
    evaluate no [%], whatever the tables and the step count. *)
Theorem step_on_empty_grid (e : engine) (steps : Z) :
  height e ≤ 0 ∨ width e ≤ 0 →
  step e = Ok (e, grid e) ∧ run_simulation e steps = Ok (e, grid e).
Proof.
  intros Hempty.
  assert (Hstep : step e = Ok (e, grid e)).
  { unfold step. destruct Hempty as [Hh|Hw].
    - rewrite (py_range_empty (height e)) by done. simpl.
      by rewrite set_grid_same.
    - rewrite (py_range_empty (width e)) by done. simpl.
      rewrite for_each_skip. simpl. by rewrite set_grid_same. }
  split; [done|]. rewrite run_simulation_step_n.
  by rewrite (step_n_fixed _ _ Hstep).
Qed.

Lemma step_on_empty_grid_witness :
  step (Engine [] 0 0 ∅ ∅) = Ok (Engine [] 0 0 ∅ ∅, [])
  ∧ run_simulation (Engine [] 0 0 ∅ ∅) 1000 = Ok (Engine [] 0 0 ∅ ∅, []).
Proof.
  apply (step_on_empty_grid (Engine [] 0 0 ∅ ∅) 1000). left. simpl. lia.
Defined.

(** ** The dead grid *)

Lemma lookup2_dead (g : ndarray Z) (y x v : Z) :
  all_dead g → lookup2 g y x = Some v → v = 0.
Proof.
  unfold all_dead, lookup2. intros Hdead Hv.
  destruct (g !! Z.to_nat y) as [row|] eqn:Hrow; simplify_eq/=.
  rewrite Forall_lookup in Hdead. specialize (Hdead _ _ Hrow).
  rewrite Forall_lookup in Hdead. by apply (Hdead _ _ Hv).
Qed.

Lemma count_one_dead (e : engine) (g : ndarray Z) (y x dy dx c : Z) :
  shape_ok (height e) (width e) g → height e ≠ 0 → width e ≠ 0 → all_dead g →
  count_one e g y x dy dx c = Ok c.
Proof.
  intros Hshape Hh Hw Hdead. unfold count_one. case_bool_decide; [done|].
  destruct (resolve_total e y x dy dx Hh Hw) as [[ny nx] ->]. simpl.
  case_bool_decide as Hin; [|done]. destruct Hin as [Hy Hx].
  destruct (lookup2_is_Some _ _ g ny nx Hshape Hy Hx) as [v Hv].
  rewrite nd_get_lookup2, Hv by lia. simpl.
  rewrite (lookup2_dead _ _ _ _ Hdead Hv). f_equal. lia.
Qed.

Lemma count_dead (e : engine) (g : ndarray Z) (y x : Z) :
  shape_ok (height e) (width e) g → height e ≠ 0 → width e ≠ 0 → all_dead g →
  _count_neighbors e g y x = Ok 0.
Proof.
  intros Hshape Hh Hw Hdead. unfold _count_neighbors, directions.
  cbn [for_each].
  repeat first [ rewrite count_one_dead by done | rewrite bind_Ok; cbv beta ].
  done.
Qed.

(** A grid without a live cell is a fixed point, whatever the wormholes:
    [step] returns it unchanged, and so does [run_simulation] for every
    step count. *)
Theorem dead_grid_stays_dead (e : engine) (steps : Z) :
  shape_ok (height e) (width e) (grid e) → all_dead (grid e) →
  step e = Ok (e, grid e) ∧ run_simulation e steps = Ok (e, grid e).
Proof.
  intros Hshape Hdead.
  assert (Hstep : step e = Ok (e, grid e)).
  { destruct (step_spec e Hshape) as (g' & Hstep & Hshape' & Hcells).
    assert (g' = grid e) as ->; [|by rewrite Hstep, set_grid_same].
    apply (ndarray_ext (height e) (width e)); [done..|].
    intros y x Hy Hx.
    destruct (Hcells y x Hy Hx) as (old & n & Hold & Hn & ->).
    rewrite count_dead in Hn by (done || lia). injection Hn as <-.
    rewrite Hold, (lookup2_dead _ _ _ _ Hdead Hold). done. }
  split; [done|]. rewrite run_simulation_step_n.
  by rewrite (step_n_fixed _ _ Hstep).
Qed.

Lemma dead_grid_stays_dead_witness :
  step (set_grid wormhole_engine [[0;0;0];[0;0;0];[0;0;0]])
  = Ok (set_grid wormhole_engine [[0;0;0];[0;0;0];[0;0;0]], [[0;0;0];[0;0;0];[0;0;0]])
  ∧ run_simulation (set_grid wormhole_engine [[0;0;0];[0;0;0];[0;0;0]]) 900
    = Ok (set_grid wormhole_engine [[0;0;0];[0;0;0];[0;0;0]],
          [[0;0;0];[0;0;0];[0;0;0]]).
Proof.
  apply (dead_grid_stays_dead
           (set_grid wormhole_engine [[0;0;0];[0;0;0];[0;0;0]]) 900).
  - split; [reflexivity | repeat constructor].
  - repeat constructor.
Defined.

(** ** Wormholes act at their endpoints only *)

Section NoEntry.
Variable e : engine.
Variables y x : Z.
Hypothesis no_h_entry : h_wormholes e !! (y, x) = None.
Hypothesis no_v_entry : v_wormholes e !! (y, x) = None.

Lemma resolve_no_entry (dy dx : Z) :
  height e ≠ 0 → width e ≠ 0 →
  _get_wormhole_neighbor e y x dy dx
  = Ok ((y + dy) mod height e, (x + dx) mod width e).
Proof.
  intros Hh Hw.
  unfold _get_wormhole_neighbor, vertical_neighbor, diagonal_neighbor,
    regular_neighbor.
  rewrite no_h_entry, no_v_entry, !py_mod_ok by done.
  by repeat case_bool_decide.
Qed.

Lemma count_one_no_entry (g : ndarray Z) (dy dx c : Z) :
  shape_ok (height e) (width e) g → 0 < height e → 0 < width e →
  ¬ (dy = 0 ∧ dx = 0) →
  count_one e g y x dy dx c
  = Ok (c + torus_cell (height e) (width e) g (y + dy) (x + dx)).
Proof.
  intros Hshape Hh Hw Hdir. unfold count_one, torus_cell.
  rewrite bool_decide_false, resolve_no_entry by (done || lia). simpl.
  pose proof (Z.mod_pos_bound (y + dy) (height e) Hh) as Hy.
  pose proof (Z.mod_pos_bound (x + dx) (width e) Hw) as Hx.
  rewrite bool_decide_true by done.
  destruct (lookup2_is_Some _ _ g _ _ Hshape Hy Hx) as [v Hv].
  rewrite nd_get_lookup2, Hv by lia. done.
Qed.

Lemma count_no_entry (g : ndarray Z) :
  shape_ok (height e) (width e) g → 0 < height e → 0 < width e →
  _count_neighbors e g y x = Ok (torus_count (height e) (width e) g y x).
Proof.
  intros Hshape Hh Hw. unfold _count_neighbors, directions. cbn [for_each].
  repeat first [ rewrite count_one_no_entry by (done || lia)
               | rewrite count_one_self
               | rewrite bind_Ok; cbv beta ].
  f_equal. unfold torus_count, torus_offsets. simpl. lia.
Qed.
End NoEntry.

(** A cell that is a key of neither table is treated as on the plain
    torus, even when other cells have wormholes: its neighbour count is the
    toroidal one and [step] gives it the value that one generation of Game
    of Life on the torus gives it. *)
Theorem wormholes_act_at_endpoints_only (e : engine) (y x : Z) :
  wf_engine e → 0 ≤ y < height e → 0 ≤ x < width e →
  h_wormholes e !! (y, x) = None → v_wormholes e !! (y, x) = None →
  _count_neighbors e (grid e) y x
  = Ok (torus_count (height e) (width e) (grid e) y x)
  ∧ ∃ g', step e = Ok (set_grid e g', g')
          ∧ nd_get g' y x
            = nd_get (torus_step (height e) (width e) (grid e)) y x.
Proof.
  intros [Hshape Hbin] Hy Hx Hh Hv.
  assert (Hcount : _count_neighbors e (grid e) y x
                   = Ok (torus_count (height e) (width e) (grid e) y x)).
  { apply count_no_entry; (done || lia). }
  split; [done|].
  destruct (step_spec e Hshape) as (g' & Hstep & Hshape' & Hcells).
  exists g'. split; [done|].
  destruct (Hcells y x Hy Hx) as (old & n & Hold & Hn & Hnew).
  rewrite Hcount in Hn. injection Hn as <-.
  rewrite !nd_get_lookup2, Hnew, torus_step_lookup by (done || lia).
  unfold torus_cell. rewrite !Z.mod_small, Hold by lia. simpl.
  destruct (lookup2_binary _ _ _ _ Hbin Hold) as [-> | ->];
    unfold next_cell, life_rule; repeat case_bool_decide; (done || lia).
Qed.

Lemma wormholes_act_at_endpoints_only_witness :
  _count_neighbors wormhole_engine (grid wormhole_engine) 1 1
  = Ok (torus_count 3 3 (grid wormhole_engine) 1 1).
Proof.
  assert (Hwf : wf_engine wormhole_engine) by concrete_wf.
  exact (proj1 (wormholes_act_at_endpoints_only wormhole_engine 1 1 Hwf
                  ltac:(simpl; lia) ltac:(simpl; lia) eq_refl eq_refl)).
Defined.

(** ** Edge cases of the table builder *)

Lemma nd_get_raises {A} (a : ndarray A) (y x : Z) (err : exn) :
  nd_get a y x = Raise err → err = IndexError.
Proof. unfold nd_get. repeat case_match; intros; by simplify_eq. Qed.

Lemma nd_get_elem {A} (a : ndarray A) (y x : Z) (v : A) :
  nd_get a y x = Ok v → ∃ row, row ∈ a ∧ v ∈ row.
Proof.
  unfold nd_get. repeat case_match; intros; simplify_eq.
  eexists. split; by eapply list_elem_of_lookup_2.
Qed.

(** A loop raises when one of its elements makes the body raise in every
    state, no other exception being possible. *)
Lemma for_each_raises {A S} (xs : list A) (body : A → S → result S)
    (err : exn) (x0 : A) (s : S) :
  x0 ∈ xs → (∀ s0, body x0 s0 = Raise err) →
  (∀ x s0 err', body x s0 = Raise err' → err' = err) →
  for_each xs body s = Raise err.
Proof.
  intros Hin Hbad Honly. revert s.
  induction xs as [|x xs IH]; intros s; [by apply elem_of_nil in Hin|].
  simpl. destruct (body x s) as [s'|err'] eqn:Hbody; simpl.
  - apply elem_of_cons in Hin as [->|Hin]; [|by apply IH].
    by rewrite Hbad in Hbody.
  - by rewrite (Honly _ _ _ Hbody).
Qed.

Lemma for_each_agree {A S} (xs : list A) (f g : A → S → result S) (s : S) :
  (∀ x s0, x ∈ xs → f x s0 = g x s0) → for_each xs f s = for_each xs g s.
Proof.
  revert s. induction xs as [|x xs IH]; intros s Hfg; simpl; [done|].
  rewrite Hfg by left. destruct (g x s) as [s'|err]; simpl; [|done].
  apply IH. intros. apply Hfg. by right.
Qed.

(** The scan as one loop over the positions. *)
Lemma scan_tunnel_map_flat (h w : Z) (tunnel_map : ndarray color) :
  scan_tunnel_map h w tunnel_map
  = for_each (positions h w) (λ p d,
      pixel ← nd_get tunnel_map p.1 p.2;
      if bool_decide (pixel ≠ black) then mret (dd_append d pixel (p.1, p.2))
      else mret d) [].
Proof.
  unfold scan_tunnel_map.
  by rewrite (for_each_positions h w (λ y x d,
    pixel ← nd_get tunnel_map y x;
    if bool_decide (pixel ≠ black) then mret (dd_append d pixel (y, x))
    else mret d)).
Qed.

(** A tunnel map with fewer rows or fewer columns than the non-empty grid
    makes the builder raise [IndexError]. *)
Theorem small_tunnel_map_raises (h w h' w' : Z) (tunnel_map : ndarray color) :
  shape_ok h' w' tunnel_map → 0 < h → 0 < w → h' < h ∨ w' < w →
  _build_wormhole_connections h w tunnel_map = Raise IndexError.
Proof.
  intros [Hlen Hrows] Hh Hw Hsmall. unfold _build_wormhole_connections.
  rewrite scan_tunnel_map_flat.
  assert (Hbad : ∃ p, p ∈ positions h w
                      ∧ nd_get tunnel_map p.1 p.2 = Raise IndexError).
  { destruct (decide (h' < h)) as [Hrow|Hrow].
    - exists (h', 0). split; [apply elem_of_positions; simpl; lia|].
      simpl. unfold nd_get, np_index.
      by rewrite !bool_decide_false by lia.
    - assert (Hcol : w' < w) by lia.
      destruct tunnel_map as [|row rest]; [simpl in Hlen; lia|].
      apply Forall_cons in Hrows as [Hrow0 _].
      exists (0, w'). split; [apply elem_of_positions; simpl; lia|].
      simpl. unfold nd_get. rewrite np_index_nonneg by lia.
      rewrite bool_decide_true by (simpl; lia). simpl.
      unfold np_index. by rewrite !bool_decide_false by lia. }
  destruct Hbad as (p & Hp & Hget).
  rewrite (for_each_raises _ _ IndexError p); [done|done| |].
  - intros d. by rewrite Hget.
  - intros q d err Hbody.
    destruct (nd_get tunnel_map q.1 q.2) as [c|err0] eqn:Hq; simpl in Hbody.
    + by destruct (bool_decide (c ≠ black)).
    + injection Hbody as <-. by apply nd_get_raises in Hq.
Qed.

Lemma small_tunnel_map_raises_witness :
  _build_wormhole_connections 3 3 [[(255,0,0); black]; [black; (255,0,0)]]
  = Raise IndexError.
Proof.
  apply (small_tunnel_map_raises 3 3 2 2); [|lia|lia|lia].
  split; [reflexivity | repeat constructor].
Defined.

(** Only the pixels inside the grid's rectangle count: two tunnel maps
    that agree there give the same result, so a tunnel map larger than the
    grid is accepted and what lies outside is ignored. *)
Theorem build_reads_grid_rectangle_only (h w : Z) (tm1 tm2 : ndarray color) :
  (∀ y x, 0 ≤ y < h → 0 ≤ x < w → nd_get tm1 y x = nd_get tm2 y x) →
  _build_wormhole_connections h w tm1 = _build_wormhole_connections h w tm2.
Proof.
  intros Hagree. unfold _build_wormhole_connections.
  rewrite !scan_tunnel_map_flat. f_equal.
  apply for_each_agree. intros [y x] d [Hy Hx]%elem_of_positions. simpl in *.
  by rewrite Hagree.
Qed.

Lemma build_reads_grid_rectangle_only_witness :
  _build_wormhole_connections 1 2 [[(255,0,0); (255,0,0)]]
  = _build_wormhole_connections 1 2
      [[(255,0,0); (255,0,0); (255,0,0)]; [(0,255,0); black; (0,255,0)]].
Proof.
  apply build_reads_grid_rectangle_only. intros y x Hy Hx.
  assert (y = 0) as -> by lia.
  assert (x = 0 ∨ x = 1) as [-> | ->] by lia; reflexivity.
Defined.

Lemma pixel_at_black (tunnel_map : ndarray color) (p : Z * Z) :
  all_black tunnel_map → pixel_at tunnel_map p = black.
Proof.
  intros Hblack. unfold pixel_at.
  destruct (nd_get tunnel_map p.1 p.2) as [c|err] eqn:Hget; [|done].
  apply nd_get_elem in Hget as (row & Hrow & Hc).
  unfold all_black in Hblack. rewrite Forall_forall in Hblack.
  specialize (Hblack _ Hrow). rewrite Forall_forall in Hblack. by apply Hblack.
Qed.

(** A tunnel map without a coloured pixel gives the empty table: the
    object then has no wormhole. *)
Theorem black_tunnel_map_gives_no_wormhole (h w : Z) (tunnel_map : ndarray color) :
  shape_ok h w tunnel_map → all_black tunnel_map →
  _build_wormhole_connections h w tunnel_map = Ok ∅.
Proof.
  intros Hshape Hblack.
  destruct (build_total h w tunnel_map Hshape) as [t Hbuild].
  rewrite Hbuild. f_equal. apply map_empty. intros p.
  destruct (t !! p) as [q|] eqn:Hq; [|done].
  apply (build_spec _ _ _ _ Hbuild) in Hq as (c & Hc & Hpos).
  assert (Hin : p ∈ color_positions h w tunnel_map c).
  { destruct Hpos as [-> | ->]; [by left|by right; left]. }
  apply list_elem_of_filter in Hin as [Hpix _].
  by rewrite pixel_at_black in Hpix.
Qed.

Lemma black_tunnel_map_gives_no_wormhole_witness :
  _build_wormhole_connections 2 2 [[black; black]; [black; black]] = Ok ∅.
Proof.
  apply black_tunnel_map_gives_no_wormhole.
  - split; [reflexivity | repeat constructor].
  - repeat constructor.
Defined.

(** ** Images *)

Lemma fmap_fixed {A} (f : A → A) (P : A → Prop) (l : list A) :
  (∀ a, P a → f a = a) → Forall P l → f <$> l = l.
Proof.
  intros Hf Hl. induction Hl as [|a l Ha _ IH]; [done|].
  rewrite fmap_cons, IH, Hf by done. done.
Qed.

(** What [save_grid_as_image] writes for a grid of zeros and ones is
    black and white, and [_image_to_grid] reads the grid back from it. *)
Theorem saved_image_reloads (g : ndarray Z) :
  binary g →
  Forall (Forall (λ v, v = 0 ∨ v = 255)) (_grid_to_image g)
  ∧ _image_to_grid (_grid_to_image g) = g.
Proof.
  intros Hbin. unfold _image_to_grid, _grid_to_image. split.
  - apply Forall_fmap. eapply Forall_impl; [exact Hbin|]. intros row Hrow.
    simpl. apply Forall_fmap. eapply Forall_impl; [exact Hrow|].
    intros v [-> | ->]; [by left|by right].
  - rewrite <- list_fmap_compose.
    apply (fmap_fixed _ (Forall (λ v, v = 0 ∨ v = 1))); [|exact Hbin].
    intros row Hrow. simpl. rewrite <- list_fmap_compose.
    apply (fmap_fixed _ (λ v, v = 0 ∨ v = 1)); [|exact Hrow].
    by intros v [-> | ->].
Qed.

Lemma saved_image_reloads_witness :
  Forall (Forall (λ v, v = 0 ∨ v = 255)) (_grid_to_image blinker)
  ∧ _image_to_grid (_grid_to_image blinker) = blinker.
Proof. apply saved_image_reloads. repeat first [ by left | by right | constructor ]. Defined.

Lemma image_to_grid_shape (h w : Z) (img : ndarray Z) :
  shape_ok h w img → shape_ok h w (_image_to_grid img).
Proof.
  intros [Hlen Hrows]. unfold _image_to_grid. split.
  - by rewrite length_fmap.
  - apply Forall_fmap. eapply Forall_impl; [exact Hrows|]. intros row Hrow.
    simpl. by rewrite length_fmap.
Qed.

Lemma image_to_grid_binary (img : ndarray Z) : binary (_image_to_grid img).
Proof.
  unfold binary, _image_to_grid. apply Forall_fmap, Forall_forall.
  intros row _. simpl. apply Forall_fmap, Forall_forall. intros v _. simpl.
  case_bool_decide; auto.
Qed.

(** ** The constructor *)

(** Arrays of one shape are arrays of the shape [nd_shape] reads. *)
Lemma shape_ok_nd_shape {A B} (h w : Z) (a : ndarray A) (b : ndarray B) :
  shape_ok h w a → shape_ok h w b →
  shape_ok (nd_shape a).1 (nd_shape a).2 b.
Proof.
  intros [Ha Hra] [Hb Hrb]. destruct a as [|row a]; simpl in *.
  - destruct b as [|rb b]; [by split|]. simpl in Hb. lia.
  - apply Forall_cons in Hra as [Hrow _]. rewrite Hrow. split; [lia|done].
Qed.

Lemma built_table_symmetric (h w : Z) (tunnel_map : ndarray color)
    (t : gmap (Z * Z) (Z * Z)) (k v : Z * Z) :
  _build_wormhole_connections h w tunnel_map = Ok t →
  t !! k = Some v → t !! v = Some k.
Proof.
  intros Hbuild Hkv.
  apply (build_spec _ _ _ _ Hbuild) in Hkv as (c & Hc & Hpos).
  apply (build_spec _ _ _ _ Hbuild). exists c. tauto.
Qed.

Lemma init_ok (h w : Z) (start_img : ndarray Z) (h_tunnel v_tunnel : ndarray color) :
  shape_ok h w start_img → shape_ok h w h_tunnel → shape_ok h w v_tunnel →
  ∃ game, __init__ start_img h_tunnel v_tunnel = Ok game
    ∧ wf_engine game
    ∧ grid game = _image_to_grid start_img
    ∧ _build_wormhole_connections (height game) (width game) h_tunnel
      = Ok (h_wormholes game)
    ∧ _build_wormhole_connections (height game) (width game) v_tunnel
      = Ok (v_wormholes game).
Proof.
  intros Hstart Hht Hvt. apply image_to_grid_shape in Hstart.
  unfold __init__, init_engine. cbv zeta.
  set (g := _image_to_grid start_img) in *.
  destruct (build_total _ _ h_tunnel (shape_ok_nd_shape h w g _ Hstart Hht))
    as [th Hth].
  destruct (build_total _ _ v_tunnel (shape_ok_nd_shape h w g _ Hstart Hvt))
    as [tv Htv].
  rewrite Hth, bind_Ok, Htv, bind_Ok.
  eexists. split; [reflexivity|]. cbn [grid height width h_wormholes v_wormholes].
  split; [|done]. split; [|apply image_to_grid_binary].
  by apply (shape_ok_nd_shape h w g g).
Qed.

(** From three images of one shape the constructor returns an object that
    satisfies the invariant: its grid is the thresholded start image, a
    [height] x [width] array of zeros and ones, both tables are symmetric,
    and [run_simulation] returns on it for every step count. *)
Theorem constructor_establishes_invariant (h w : Z) (start_img : ndarray Z)
    (h_tunnel v_tunnel : ndarray color) :
  shape_ok h w start_img → shape_ok h w h_tunnel → shape_ok h w v_tunnel →
  ∃ game, __init__ start_img h_tunnel v_tunnel = Ok game
    ∧ wf_engine game
    ∧ grid game = _image_to_grid start_img
    ∧ symmetric_table (h_wormholes game)
    ∧ symmetric_table (v_wormholes game)
    ∧ ∀ steps, ∃ e', run_simulation game steps = Ok (e', grid e') ∧ wf_engine e'.
Proof.
  intros Hstart Hht Hvt.
  destruct (init_ok h w _ _ _ Hstart Hht Hvt) as (game & Hinit & Hwf & Hg & Hh & Hv).
  exists game. split; [done|]. split; [done|]. split; [done|].
  split; [intros k v; by apply built_table_symmetric with (1 := Hh)|].
  split; [intros k v; by apply built_table_symmetric with (1 := Hv)|].
  intros steps. rewrite run_simulation_step_n.
  destruct (step_n_total (Z.to_nat steps) game Hwf) as (e' & -> & Hwf').
  by exists e'.
Qed.

Lemma constructor_establishes_invariant_witness :
  ∃ game, __init__ [[0;0;0];[200;255;129];[0;128;0]] wormhole_tunnel wormhole_tunnel
          = Ok game
    ∧ wf_engine game
    ∧ grid game = _image_to_grid [[0;0;0];[200;255;129];[0;128;0]]
    ∧ symmetric_table (h_wormholes game)
    ∧ symmetric_table (v_wormholes game)
    ∧ ∀ steps, ∃ e', run_simulation game steps = Ok (e', grid e') ∧ wf_engine e'.
Proof.
  apply (constructor_establishes_invariant 3 3);
    (split; [reflexivity | repeat constructor]).
Defined.

(** ** The driver *)

Lemma run_extends (game e : engine) (n : nat) (k : Z) :
  wf_engine e → step_n n game = Ok e →
  ∃ e', run_simulation e k = Ok (e', grid e')
        ∧ step_n (n + Z.to_nat k) game = Ok e'
        ∧ wf_engine e'.
Proof.
  intros Hwf Hn.
  destruct (step_n_total (Z.to_nat k) e Hwf) as (e' & Hk & Hwf').
  exists e'. rewrite run_simulation_step_n, step_n_add, Hn, Hk. done.
Qed.

Lemma save_iterations_cons (i k : Z) (todo : list Z) (game game' : engine)
    (g : ndarray Z) (grid : option (ndarray Z)) (saved : list (Z * ndarray Z)) :
  increment i = Some k → run_simulation game k = Ok (game', g) →
  save_iterations (i :: todo) game grid saved
  = save_iterations todo game' (Some g) (saved ++ [(i, _grid_to_image g)]).
Proof. intros Hi Hrun. cbn [save_iterations]. by rewrite Hi, Hrun. Qed.

(** For three images of one shape [process_directory] writes four files,
    and the file named after [i] holds generation [i] of the start grid,
    for [i] = 1, 10, 100 and 1000: the step counts 1, 9, 90 and 900 given
    to [run_simulation] add up as the comments of the source say. *)
Theorem process_directory_saves_generations (h w : Z) (start_img : ndarray Z)
    (h_tunnel v_tunnel : ndarray color) :
  shape_ok h w start_img → shape_ok h w h_tunnel → shape_ok h w v_tunnel →
  ∃ game e1 e10 e100 e1000,
    __init__ start_img h_tunnel v_tunnel = Ok game
    ∧ step_n 1 game = Ok e1
    ∧ step_n 10 game = Ok e10
    ∧ step_n 100 game = Ok e100
    ∧ step_n 1000 game = Ok e1000
    ∧ process_directory (Some (start_img, h_tunnel, v_tunnel))
      = Finished [(1, _grid_to_image (grid e1));
                  (10, _grid_to_image (grid e10));
                  (100, _grid_to_image (grid e100));
                  (1000, _grid_to_image (grid e1000))].
Proof.
  intros Hstart Hht Hvt.
  destruct (init_ok h w _ _ _ Hstart Hht Hvt) as (game & Hinit & Hwf & _).
  destruct (run_extends game game 0 1 Hwf eq_refl) as (e1 & Hr1 & Hs1 & Hwf1).
  destruct (run_extends game e1 _ 9 Hwf1 Hs1) as (e10 & Hr10 & Hs10 & Hwf10).
  destruct (run_extends game e10 _ 90 Hwf10 Hs10) as (e100 & Hr100 & Hs100 & Hwf100).
  destruct (run_extends game e100 _ 900 Hwf100 Hs100) as (e1000 & Hr1000 & Hs1000 & _).
  exists game, e1, e10, e100, e1000.
  split; [exact Hinit|]. split; [exact Hs1|]. split; [exact Hs10|].
  split; [exact Hs100|]. split; [exact Hs1000|].
  unfold process_directory, iterations. rewrite Hinit.
  rewrite (save_iterations_cons 1 1 _ _ _ _ _ _ eq_refl Hr1).
  rewrite (save_iterations_cons 10 9 _ _ _ _ _ _ eq_refl Hr10).
  rewrite (save_iterations_cons 100 90 _ _ _ _ _ _ eq_refl Hr100).
  rewrite (save_iterations_cons 1000 900 _ _ _ _ _ _ eq_refl Hr1000).
  reflexivity.
Qed.

Lemma process_directory_saves_generations_witness :
  ∃ game e1 e10 e100 e1000,
    __init__ [[0;0;0];[200;255;129];[0;128;0]] wormhole_tunnel wormhole_tunnel
    = Ok game
    ∧ step_n 1 game = Ok e1
    ∧ step_n 10 game = Ok e10
    ∧ step_n 100 game = Ok e100
    ∧ step_n 1000 game = Ok e1000
    ∧ process_directory
        (Some ([[0;0;0];[200;255;129];[0;128;0]], wormhole_tunnel, wormhole_tunnel))
      = Finished [(1, _grid_to_image (grid e1));
                  (10, _grid_to_image (grid e10));
                  (100, _grid_to_image (grid e100));
                  (1000, _grid_to_image (grid e1000))].
Proof.
  apply (process_directory_saves_generations 3 3);
    (split; [reflexivity | repeat constructor]).
Defined.
